(** * STAR wearable stress monitor: the signal-processing core of
      [Prototype_Arduino.ino], embedded in Rocq.

    The sketch runs on an ESP32: [int] and [long] are 32-bit two's
    complement, [unsigned long] is 32-bit, [float] is IEEE binary32 and
    [double] is IEEE binary64.  Integers are modelled as [Z] with the
    wrap-around written out, floating-point numbers as [spec_float] with
    the operations of [SpecFloat] at the two precisions, arrays as lists
    updated by index, and the global variables as one record threaded
    through the phases of [loop]. *)

From Stdlib Require Import ZArith Bool List Ascii String SpecFloat Lia.
From stdpp Require Import base list list_numbers strings pretty gmap.

Local Open Scope Z_scope.

(** ** Machine integers *)

Module Int.
(** [int] / [long]: 32-bit, two's complement. *)
Definition min_signed : Z := - 2 ^ 31.
Definition max_signed : Z := 2 ^ 31 - 1.
Definition in_range (z : Z) : Prop := min_signed <= z <= max_signed.

Definition wrap (z : Z) : Z := (z + 2 ^ 31) mod 2 ^ 32 - 2 ^ 31.

Definition add (a b : Z) : Z := wrap (a + b).
Definition sub (a b : Z) : Z := wrap (a - b).
Definition mul (a b : Z) : Z := wrap (a * b).
Definition neg (a : Z) : Z := wrap (- a).
(** C's [/] and [%] truncate towards zero. *)
Definition div (a b : Z) : Z := wrap (Z.quot a b).
Definition rem (a b : Z) : Z := Z.rem a b.
End Int.

Module ULong.
(** [unsigned long]: 32-bit, arithmetic modulo 2^32. *)
Definition modulus : Z := 2 ^ 32.
Definition in_range (z : Z) : Prop := 0 <= z < modulus.
Definition wrap (z : Z) : Z := z mod modulus.
Definition sub (a b : Z) : Z := wrap (a - b).
End ULong.

(** ** Floating point *)

(** Conversions shared by both formats. *)
Module FP.
(** Truncation towards zero of a finite value; the other classes have
    no integer value and give 0 here (see [Float.to_int] for the range). *)
Definition trunc (x : spec_float) : Z :=
  match x with
  | S754_finite s m e =>
      let a := match e with
               | Zneg p => Z.shiftr (Zpos m) (Zpos p)
               | _ => Z.shiftl (Zpos m) e
               end in
      if s then - a else a
  | _ => 0
  end.

Definition is_pos_inf (x : spec_float) : bool :=
  match x with S754_infinity false => true | _ => false end.
Definition is_neg_inf (x : spec_float) : bool :=
  match x with S754_infinity true => true | _ => false end.
End FP.

Module Double.
(** IEEE binary64. *)
Definition prec : Z := 53.
Definition emax : Z := 1024.
Definition of_Z (z : Z) : spec_float := binary_normalize prec emax z 0 false.
(** A [float] read as a [double]: exact, renormalised to 53 bits. *)
Definition of_float (x : spec_float) : spec_float :=
  match x with
  | S754_finite s m e => binary_round prec emax s m e
  | _ => x
  end.
Definition add := SFadd prec emax.
Definition mul := SFmul prec emax.
Definition div := SFdiv prec emax.
(** [pow(x, 2)]: the square, rounded once. *)
Definition pow2 (x : spec_float) : spec_float := mul x x.
End Double.

Module Float.
(** IEEE binary32. *)
Definition prec : Z := 24.
Definition emax : Z := 128.
Definition zero : spec_float := S754_zero false.
Definition of_Z (z : Z) : spec_float := binary_normalize prec emax z 0 false.
(** A [double] stored into a [float]: rounded to nearest, ties to even. *)
Definition of_double (x : spec_float) : spec_float :=
  match x with
  | S754_finite s m e => binary_round prec emax s m e
  | _ => x
  end.
Definition add := SFadd prec emax.
Definition sub := SFsub prec emax.
Definition mul := SFmul prec emax.
Definition div := SFdiv prec emax.
Definition sqrt := SFsqrt prec emax.
Definition ltb := SFltb.
Definition leb := SFleb.
Definition gtb (x y : spec_float) : bool := SFltb y x.
Definition geb (x y : spec_float) : bool := SFleb y x.
(** [int(x)]: truncation towards zero.  Outside the range of [int] the
    conversion has no defined result in C++.  The function is total and
    clamps there, but that value stands for nothing: the statements
    below that give the value of a conversion are made where it is inside
    the range (see [convertible_to_int]). *)
Definition to_int (x : spec_float) : Z :=
  if FP.is_pos_inf x then Int.max_signed
  else if FP.is_neg_inf x then Int.min_signed
  else Z.max Int.min_signed (Z.min Int.max_signed (FP.trunc x)).
End Float.

(** ** Constants of the sketch *)

Definition UpperThreshold : Z := 560.
Definition ECG_SAMPLE_SIZE : Z := 128.
Definition ECG_AMPLITUDE : Z := 20.
Definition motor1 : Z := 12.
Definition motor2 : Z := 14.
(** [interval] and [decayRate] are globals that the sketch never assigns. *)
Definition interval : Z := 10000.
(** [float decayRate = 0.9]: the double literal, stored into a float. *)
Definition decayRate : spec_float :=
  Float.of_double (Double.div (Double.of_Z 9) (Double.of_Z 10)).
Definition transmissionInterval : Z := 5000.

(** ** Arrays *)

(** [a[i]] and [a[i] = v].  An index outside the array is undefined
    behaviour in C++; the model writes nothing there, and a read gives an
    arbitrary value (0 below the array, the default 1 of the list lookup
    above it).  No state with [wf] reads or writes out of bounds. *)
Definition aget (a : list Z) (i : Z) : Z :=
  if 0 <=? i then a !!! Z.to_nat i else 0.
Definition aset (a : list Z) (i v : Z) : list Z :=
  if 0 <=? i then <[Z.to_nat i := v]> a else a.

(** [for (int i = lo; i < hi; i++) acc = body i acc] *)
Definition for_range {A} (lo hi : Z) (body : Z -> A -> A) (acc : A) : A :=
  fold_left (fun a i => body i a) (seqZ lo (hi - lo)) acc.

(** ** Global variables *)

(** The globals of the sketch that it assigns, in the order of their
    declarations. *)
Record state : Type := mkState {
  lastBeatTime : Z;             (* unsigned long *)
  intervalStartTime : Z;        (* unsigned long *)
  bpm : Z;                      (* int *)
  ecgWaveform : list Z;         (* int[ECG_SAMPLE_SIZE] *)
  ecgIndex : Z;                 (* int *)
  pulseCount : Z;               (* int *)
  sdnn : spec_float;            (* float *)
  rmssd : spec_float;           (* float *)
  stressLevel : string;         (* String *)
  nnIntervals : list Z;         (* unsigned long[ECG_SAMPLE_SIZE] *)
  nnIndex : Z;                  (* int *)
  lastTransmissionTime : Z      (* unsigned long *)
}.

(** Assignments to one global. *)

Definition set_lastBeatTime (v : Z) (st : state) : state :=
  mkState v (intervalStartTime st) (bpm st) (ecgWaveform st) (ecgIndex st)
          (pulseCount st) (sdnn st) (rmssd st) (stressLevel st)
          (nnIntervals st) (nnIndex st) (lastTransmissionTime st).
Definition set_intervalStartTime (v : Z) (st : state) : state :=
  mkState (lastBeatTime st) v (bpm st) (ecgWaveform st) (ecgIndex st)
          (pulseCount st) (sdnn st) (rmssd st) (stressLevel st)
          (nnIntervals st) (nnIndex st) (lastTransmissionTime st).
Definition set_bpm (v : Z) (st : state) : state :=
  mkState (lastBeatTime st) (intervalStartTime st) v (ecgWaveform st)
          (ecgIndex st) (pulseCount st) (sdnn st) (rmssd st) (stressLevel st)
          (nnIntervals st) (nnIndex st) (lastTransmissionTime st).
Definition set_ecgWaveform (v : list Z) (st : state) : state :=
  mkState (lastBeatTime st) (intervalStartTime st) (bpm st) v (ecgIndex st)
          (pulseCount st) (sdnn st) (rmssd st) (stressLevel st)
          (nnIntervals st) (nnIndex st) (lastTransmissionTime st).
Definition set_ecgIndex (v : Z) (st : state) : state :=
  mkState (lastBeatTime st) (intervalStartTime st) (bpm st) (ecgWaveform st) v
          (pulseCount st) (sdnn st) (rmssd st) (stressLevel st)
          (nnIntervals st) (nnIndex st) (lastTransmissionTime st).
Definition set_pulseCount (v : Z) (st : state) : state :=
  mkState (lastBeatTime st) (intervalStartTime st) (bpm st) (ecgWaveform st)
          (ecgIndex st) v (sdnn st) (rmssd st) (stressLevel st)
          (nnIntervals st) (nnIndex st) (lastTransmissionTime st).
Definition set_sdnn (v : spec_float) (st : state) : state :=
  mkState (lastBeatTime st) (intervalStartTime st) (bpm st) (ecgWaveform st)
          (ecgIndex st) (pulseCount st) v (rmssd st) (stressLevel st)
          (nnIntervals st) (nnIndex st) (lastTransmissionTime st).
Definition set_rmssd (v : spec_float) (st : state) : state :=
  mkState (lastBeatTime st) (intervalStartTime st) (bpm st) (ecgWaveform st)
          (ecgIndex st) (pulseCount st) (sdnn st) v (stressLevel st)
          (nnIntervals st) (nnIndex st) (lastTransmissionTime st).
Definition set_stressLevel (v : string) (st : state) : state :=
  mkState (lastBeatTime st) (intervalStartTime st) (bpm st) (ecgWaveform st)
          (ecgIndex st) (pulseCount st) (sdnn st) (rmssd st) v
          (nnIntervals st) (nnIndex st) (lastTransmissionTime st).
Definition set_nnIntervals (v : list Z) (st : state) : state :=
  mkState (lastBeatTime st) (intervalStartTime st) (bpm st) (ecgWaveform st)
          (ecgIndex st) (pulseCount st) (sdnn st) (rmssd st) (stressLevel st)
          v (nnIndex st) (lastTransmissionTime st).
Definition set_nnIndex (v : Z) (st : state) : state :=
  mkState (lastBeatTime st) (intervalStartTime st) (bpm st) (ecgWaveform st)
          (ecgIndex st) (pulseCount st) (sdnn st) (rmssd st) (stressLevel st)
          (nnIntervals st) v (lastTransmissionTime st).
Definition set_lastTransmissionTime (v : Z) (st : state) : state :=
  mkState (lastBeatTime st) (intervalStartTime st) (bpm st) (ecgWaveform st)
          (ecgIndex st) (pulseCount st) (sdnn st) (rmssd st) (stressLevel st)
          (nnIntervals st) (nnIndex st) v.

(** State at power-up: every global is zero-initialised, [stressLevel] is
    the empty string. *)
Definition init : state :=
  mkState 0 0 0 (replicate (Z.to_nat ECG_SAMPLE_SIZE) 0) 0 0
          Float.zero Float.zero EmptyString
          (replicate (Z.to_nat ECG_SAMPLE_SIZE) 0) 0 0.

(** ** Peripherals

    The two motor pins and the lines written to the Bluetooth serial port.
    The OLED display and the debugging prints on [Serial] only read the
    globals and are left out. *)

Record device : Type := mkDevice {
  pins : gmap Z bool;
  bluetooth : list string
}.

Definition HIGH : bool := true.
Definition LOW : bool := false.

Definition digitalWrite (pin : Z) (level : bool) (d : device) : device :=
  mkDevice (<[pin := level]> (pins d)) (bluetooth d).

Definition device0 : device := mkDevice ∅ [].

(** ** Library functions of the Arduino core *)

(** Modelled from the spec: [map] belongs to the Arduino core, not to the
    sketch; it is the linear rescaling of section 3,
    [(x - in_min) * (out_max - out_min) / (in_max - in_min) + out_min]
    on [long]. *)
Definition map (x in_min in_max out_min out_max : Z) : Z :=
  Int.add (Int.div (Int.mul (Int.sub x in_min) (Int.sub out_max out_min))
                   (Int.sub in_max in_min))
          out_min.

(** [abs(x)] is the core's macro [((x)>0?(x):-(x))]. *)
Definition abs (x : Z) : Z := if 0 <? x then x else Int.neg x.

(** ** The sketch *)

(** [computeHRV], lines 143-175.  [sumNN], [meanNN] and the two sums of
    squares are [float]s; [pow] takes and returns [double], so each
    [sum += pow(d, 2)] adds in [double] and rounds the sum back to
    [float].  In the SDNN loop [d] is [unsigned long - float], a [float];
    in the RMSSD loop [d] is [unsigned long - unsigned long], computed
    modulo 2^32 before it is converted.  [sqrt] is applied to a [float]
    and is the [float] overload that the C++ <math.h> declares. *)
Definition computeHRV (st : state) : state :=
  if nnIndex st <? 2 then
    set_rmssd (Float.of_Z 0) (set_sdnn (Float.of_Z 0) st)
  else
    let n := nnIndex st in
    let nn := aget (nnIntervals st) in
    let sumNN :=
      for_range 0 n (fun i sum => Float.add sum (Float.of_Z (nn i))) Float.zero in
    let meanNN := Float.div sumNN (Float.of_Z n) in
    let sumSquareDiff :=
      for_range 0 n
        (fun i sum =>
           let d := Float.sub (Float.of_Z (nn i)) meanNN in
           Float.of_double
             (Double.add (Double.of_float sum) (Double.pow2 (Double.of_float d))))
        Float.zero in
    let st :=
      set_sdnn (Float.sqrt (Float.div sumSquareDiff (Float.of_Z (Int.sub n 1)))) st in
    let sumSquareDiffSuccessive :=
      for_range 1 n
        (fun i sum =>
           let d := ULong.sub (nn i) (nn (i - 1)) in
           Float.of_double
             (Double.add (Double.of_float sum) (Double.pow2 (Double.of_Z d))))
        Float.zero in
    set_rmssd
      (Float.of_Z
         (Int.rem
            (Float.to_int
               (Float.sqrt
                  (Float.div sumSquareDiffSuccessive (Float.of_Z (Int.sub n 1)))))
            1000))
      st.

(** [controlVibeMotors], lines 178-189. *)
Definition controlVibeMotors (level : string) (d : device) : device :=
  if String.eqb level "Very High" then
    digitalWrite motor2 HIGH (digitalWrite motor1 HIGH d)
  else if String.eqb level "High" then
    digitalWrite motor2 LOW (digitalWrite motor1 HIGH d)
  else
    digitalWrite motor2 LOW (digitalWrite motor1 LOW d).

(** [sendBluetoothData], lines 213-216. *)
Definition sendBluetoothData (st : state) (d : device) : device :=
  let data := pretty (bpm st) +:+ "," +:+ stressLevel st in
  mkDevice (pins d) (bluetooth d ++ [data]).

(** [loop], lines 72-73: store the rescaled sample, advance the index. *)
Definition sampleWaveform (pulseValue : Z) (st : state) : state :=
  let st :=
    set_ecgWaveform
      (aset (ecgWaveform st) (ecgIndex st) (map pulseValue 0 1023 0 ECG_AMPLITUDE))
      st in
  set_ecgIndex (Int.rem (Int.add (ecgIndex st) 1) ECG_SAMPLE_SIZE) st.

(** [loop], line 76: the condition of the pulse detector. *)
Definition beatAccepted (currentMillis pulseValue : Z) (st : state) : bool :=
  (UpperThreshold <? pulseValue)
  && (600 <? ULong.sub currentMillis (lastBeatTime st)).

(** [loop], lines 76-83. *)
Definition detectPulse (currentMillis pulseValue : Z) (st : state) : state :=
  if beatAccepted currentMillis pulseValue st then
    let nnInterval := ULong.sub currentMillis (lastBeatTime st) in
    let st := set_lastBeatTime currentMillis st in
    let st := set_nnIntervals (aset (nnIntervals st) (nnIndex st) nnInterval) st in
    let st := set_nnIndex (Int.rem (Int.add (nnIndex st) 1) ECG_SAMPLE_SIZE) st in
    set_pulseCount (Int.add (pulseCount st) 1) st
  else st.

(** [loop], lines 88-93. *)
Definition estimateBPM (st : state) : state :=
  if 0 <? pulseCount st then
    set_bpm (Int.div (Int.mul (pulseCount st) 60) (Int.div interval 1000)) st
  else
    let st :=
      set_bpm (Float.to_int (Float.mul (Float.of_Z (bpm st)) decayRate)) st in
    if bpm st <? 1 then set_bpm 0 st else st.

(** [loop], lines 100-112. *)
Definition classifyStress (bpm : Z) (sdnn rmssd : spec_float) : string :=
  if 0 <? bpm then
    if (90 <? bpm) && Float.ltb sdnn (Float.of_Z 50)
       && Float.ltb rmssd (Float.of_Z 30) then "Very High"
    else if (80 <? bpm) && Float.geb sdnn (Float.of_Z 50)
            && Float.leb sdnn (Float.of_Z 100)
            && Float.geb rmssd (Float.of_Z 30)
            && Float.leb rmssd (Float.of_Z 70) then "High"
    else if (70 <? bpm) && Float.gtb sdnn (Float.of_Z 100)
            && Float.gtb rmssd (Float.of_Z 70) then "Moderate"
    else "Low"
  else "None".

(** [loop], lines 115-121: [forallb] stops at the first pair that fails,
    as the [break] does. *)
Definition minimalVariation (w : list Z) : bool :=
  forallb (fun i => negb (1 <? abs (Int.sub (aget w i) (aget w (i - 1)))))
          (seqZ 1 (ECG_SAMPLE_SIZE - 1)).

(** [loop], lines 122-125. *)
Definition flatlineGuard (st : state) : state :=
  if minimalVariation (ecgWaveform st) then
    set_stressLevel "None" (set_bpm 0 st)
  else st.

(** [loop], lines 87-127: the body of the elapsed-window branch. *)
Definition evaluateWindow (currentMillis : Z) (st : state) : state :=
  let st := set_intervalStartTime currentMillis st in
  let st := estimateBPM st in
  let st := computeHRV st in
  let st := set_stressLevel (classifyStress (bpm st) (sdnn st) (rmssd st)) st in
  let st := flatlineGuard st in
  set_pulseCount 0 st.

(** [loop], line 86. *)
Definition windowElapsed (currentMillis : Z) (st : state) : bool :=
  interval <=? ULong.sub currentMillis (intervalStartTime st).

(** [loop], lines 65-141, for one reading [currentMillis] of [millis()]
    and one reading [pulseValue] of the sensor. *)
Definition loop (currentMillis pulseValue : Z) (w : state * device)
  : state * device :=
  let '(st, dev) := w in
  let st := sampleWaveform pulseValue st in
  let st := detectPulse currentMillis pulseValue st in
  let st :=
    if windowElapsed currentMillis st then evaluateWindow currentMillis st
    else st in
  let dev := controlVibeMotors (stressLevel st) dev in
  if transmissionInterval <=? ULong.sub currentMillis (lastTransmissionTime st)
  then (set_lastTransmissionTime currentMillis st, sendBluetoothData st dev)
  else (st, dev).

(** A run of the device: one [(currentMillis, pulseValue)] per iteration. *)
Definition run (inputs : list (Z * Z)) (w : state * device) : state * device :=
  fold_left (fun w '(t, s) => loop t s w) inputs w.

(** The NN intervals appended to the history during a run, oldest first,
    each paired with the timestamp at which its beat was accepted.  The
    detector sees the state left by [sampleWaveform]. *)
Fixpoint recorded (inputs : list (Z * Z)) (w : state * device) : list (Z * Z) :=
  match inputs with
  | [] => []
  | (t, s) :: rest =>
      let st := sampleWaveform s (fst w) in
      (if beatAccepted t s st then [(t, ULong.sub t (lastBeatTime st))] else [])
      ++ recorded rest (loop t s w)
  end.

(** The pulse detector alone, over a sequence of readings. *)
Definition detectAll (inputs : list (Z * Z)) (st : state) : state :=
  fold_left (fun st '(t, s) => detectPulse t s st) inputs st.

(** ** Auxiliary notions used by the statements *)

(** The array indices are in bounds and the arrays have their declared
    size. *)
Record wf (st : state) : Prop := mkWf {
  wf_ecgIndex : 0 <= ecgIndex st < ECG_SAMPLE_SIZE;
  wf_nnIndex : 0 <= nnIndex st < ECG_SAMPLE_SIZE;
  wf_ecgWaveform : length (ecgWaveform st) = Z.to_nat ECG_SAMPLE_SIZE;
  wf_nnIntervals : length (nnIntervals st) = Z.to_nat ECG_SAMPLE_SIZE
}.

(** Writing the values [xs] one after the other into a ring of 128 slots,
    starting at slot [i]. *)
Fixpoint ring_write (i : Z) (xs : list Z) (a : list Z) : list Z :=
  match xs with
  | [] => a
  | x :: xs' =>
      ring_write ((i + 1) mod ECG_SAMPLE_SIZE) xs' (<[Z.to_nat i := x]> a)
  end.

(** The pair (SDNN, RMSSD) that [computeHRV] produces when the history
    holds exactly the intervals [xs] and the write index is their number. *)
Definition hrv_on (xs : list Z) : spec_float * spec_float :=
  let st :=
    computeHRV (set_nnIndex (Z.of_nat (length xs)) (set_nnIntervals xs init)) in
  (sdnn st, rmssd st).

(** 130 beats, 700 ms apart. *)
Definition beats130 : list (Z * Z) :=
  (fun k => (700 * k, 600)) <$> seqZ 1 130.

(** RMSSD in the words of section 4.2, in exact integer arithmetic: the
    sum over i = 1 .. count-1 of the squared successive differences,
    divided by count - 1, its square root truncated to an integer and
    reduced modulo 1000.  For an integer k, k <= sqrt(q) exactly when
    k^2 <= floor(q), so truncating the root of the quotient is [Z.sqrt] of
    the truncated quotient. *)
Fixpoint successive_squares (prev : Z) (rest : list Z) : Z :=
  match rest with
  | [] => 0
  | x :: rest' => (x - prev) ^ 2 + successive_squares x rest'
  end.

Definition rmssd_spec (xs : list Z) : Z :=
  match xs with
  | [] => 0
  | x0 :: rest =>
      Z.sqrt (successive_squares x0 rest / (Z.of_nat (length xs) - 1)) mod 1000
  end.

(** Six beats after power-up: the first 900 ms after the start, the others
    700 ms apart; then the end of the first evaluation window. *)
Definition six_beats : list (Z * Z) :=
  [(900, 600); (1600, 600); (2300, 600); (3000, 600); (3700, 600);
   (4400, 600); (10000, 0)].

(** The stress levels of section 3, with the names the sketch gives them. *)
Inductive StressLevel : Type := LevelNone | Low | Moderate | High | VeryHigh.

Definition level_name (l : StressLevel) : string :=
  match l with
  | LevelNone => "None"
  | Low => "Low"
  | Moderate => "Moderate"
  | High => "High"
  | VeryHigh => "Very High"
  end.

(** The rules of section 4.4, in priority order. *)
Definition rule : Type := (Z -> spec_float -> spec_float -> bool) * StressLevel.

Definition rules : list rule :=
  [ (fun bpm sdnn rmssd =>
       (90 <? bpm) && Float.ltb sdnn (Float.of_Z 50)
       && Float.ltb rmssd (Float.of_Z 30),
     VeryHigh);
    (fun bpm sdnn rmssd =>
       (80 <? bpm)
       && (Float.leb (Float.of_Z 50) sdnn && Float.leb sdnn (Float.of_Z 100))
       && (Float.leb (Float.of_Z 30) rmssd && Float.leb rmssd (Float.of_Z 70)),
     High);
    (fun bpm sdnn rmssd =>
       (70 <? bpm) && Float.ltb (Float.of_Z 100) sdnn
       && Float.ltb (Float.of_Z 70) rmssd,
     Moderate) ].

(** None unless [bpm > 0]; otherwise the level of the first rule that
    matches, and Low when none does. *)
Definition classify_spec (bpm : Z) (sdnn rmssd : spec_float) : StressLevel :=
  if 0 <? bpm then
    match find (fun r : rule => fst r bpm sdnn rmssd) rules with
    | Some r => snd r
    | None => Low
    end
  else LevelNone.

(** The levels of the two motor pins for a stress level, as section 6 puts
    it: both on for Very High, the first on and the second off for High,
    both off otherwise. *)
Definition motors_spec (level : string) : bool * bool :=
  if decide (level = "Very High") then (true, true)
  else if decide (level = "High") then (true, false)
  else (false, false).

(** A waveform buffer that rises by one per slot from 0 to 20 and then
    stays at 20: slot 0 holds 0 and slot 127 holds 20. *)
Definition ramp : list Z := (fun i => Z.min i 20) <$> seqZ 0 128.

(** 128 iterations, 79 ms apart, whose samples rescale to [ramp]; the last
    one, at 10033 ms, ends the first evaluation window. *)
Definition ramp_inputs : list (Z * Z) :=
  (fun k => (79 * k, Z.min (52 * k) 1023)) <$> seqZ 0 128.

(** A state at the end of a window with 16 beats, fewer than 2 intervals
    in the history and a constant waveform. *)
Definition flat_16_beats : state :=
  set_pulseCount 16 (set_ecgWaveform (replicate 128 7) init).

(** A state with [bpm = 100], no beat in the window and a waveform that is
    not flat. *)
Definition silent_100 : state :=
  set_bpm 100 (set_ecgWaveform (replicate 64 0 ++ replicate 64 20) init).

(** [p] holds at [i], [i + 1], ..., [i + n - 1]: used to settle a
    statement over a range of values by evaluation. *)
Fixpoint holds_on_range (n : nat) (i : Z) (p : Z -> bool) : bool :=
  match n with
  | O => true
  | S k => p i && holds_on_range k (i + 1) p
  end.

(** ** The display

    [updateDisplay], lines 191-211, as the sequence of calls it makes on
    the display object.  The coordinates are the [int] expressions of the
    sketch. *)

Inductive color : Type := SSD1306_BLACK | SSD1306_WHITE.

Inductive display_call : Type :=
  | clearDisplay
  | drawLine (x0 y0 x1 y1 : Z) (c : color)
  | setTextSize (n : Z)
  | setCursor (x y : Z)
  | print (s : string)
  | println (s : string)
  | display.

(** The waveform loop of lines 195-197. *)
Definition waveformSegments (w : list Z) : list display_call :=
  (fun i => drawLine (Int.sub i 1) (Int.sub 40 (aget w (i - 1)))
                     i (Int.sub 40 (aget w i)) SSD1306_WHITE)
  <$> seqZ 1 (ECG_SAMPLE_SIZE - 1).

Definition updateDisplay (st : state) : list display_call :=
  [clearDisplay]
  ++ waveformSegments (ecgWaveform st)
  ++ [drawLine 0 40 127 40 SSD1306_BLACK;
      setTextSize 1;
      setCursor 0 45; print "BPM: "; println (pretty (bpm st));
      setCursor 0 55; print "Stress: "; println (stressLevel st);
      display].

(** The line that [sendBluetoothData] sends for a state. *)
Definition telemetryLine (st : state) : string :=
  pretty (bpm st) +:+ "," +:+ stressLevel st.

(** ** Notions used by the statements about runs *)

(** The readings of [millis()] do not decrease, start at [t0] or later and
    stay below 2^32 (no wrap-around during the run). *)
Fixpoint monotone_from (t0 : Z) (inputs : list (Z * Z)) : Prop :=
  match inputs with
  | [] => True
  | (t, _) :: rest => t0 <= t < 2 ^ 32 /\ monotone_from t rest
  end.

(** The time of the last iteration of a run that starts at time [t0]. *)
Definition last_time (t0 : Z) (inputs : list (Z * Z)) : Z :=
  fold_left (fun _ input => fst input) inputs t0.

(** The stress level and the heart rate agree: each level carries the
    lower bound on [bpm] of the rule that produced it. *)
Definition level_agrees (st : state) : Prop :=
  (stressLevel st = EmptyString /\ bpm st = 0) \/
  (stressLevel st = "None" /\ bpm st <= 0) \/
  (stressLevel st = "Low" /\ 0 < bpm st) \/
  (stressLevel st = "Moderate" /\ 70 < bpm st) \/
  (stressLevel st = "High" /\ 80 < bpm st) \/
  (stressLevel st = "Very High" /\ 90 < bpm st).

(** What the pulse detector and the window keep true under a monotone
    clock, at the end of an iteration at time [t]. *)
Record paced (t : Z) (st : state) : Prop := mkPaced {
  paced_beat : 0 <= lastBeatTime st <= t;
  paced_start : 0 <= intervalStartTime st <= t;
  paced_window : t - intervalStartTime st < 10000;
  paced_count : 0 <= pulseCount st <= 17;
  paced_spacing :
    0 < pulseCount st ->
    intervalStartTime st + 601 * (pulseCount st - 1) <= lastBeatTime st;
  paced_bpm : 0 <= bpm st <= 108
}.

(** The rescaled samples of a run, in order. *)
Definition rescaled (inputs : list (Z * Z)) : list Z :=
  (fun input => map (snd input) 0 1023 0 ECG_AMPLITUDE) <$> inputs.

(** A string without a comma. *)
Fixpoint comma_free (s : string) : Prop :=
  match s with
  | EmptyString => True
  | String c s' => c <> ","%char /\ comma_free s'
  end.

(** A run that reaches 108 beats per minute: a window that ends at
    20000 ms, a first beat in that same millisecond, sixteen more beats 601
    ms apart, and one more in the iteration that ends the next window. *)
Definition fastest_run : list (Z * Z) :=
  [(20000, 0); (20000, 600)]
  ++ ((fun k => (20000 + 601 * k, 600)) <$> seqZ 1 16)
  ++ [(29800, 0); (30217, 600)].

(** Sixteen beats 625 ms apart, with a low sample between two beats; the
    last beat, at 10000 ms, ends the first window. *)
Definition brisk_run : list (Z * Z) :=
  flat_map (fun k => [(625 * k - 300, 0); (625 * k, 600)]) (seqZ 1 16).

(** A floating-point value that is not below zero: a zero, a positive
    number, plus infinity, or not a number. *)
Definition not_negative (x : spec_float) : Prop :=
  match x with
  | S754_infinity true | S754_finite true _ _ => False
  | _ => True
  end.

(** The sum of a list of integers. *)
Definition total (xs : list Z) : Z := foldr Z.add 0 xs.

(** 130 iterations whose sample is the number of the iteration times 7. *)
Definition counting_run : list (Z * Z) :=
  (fun k => (40 * k, 7 * k)) <$> seqZ 0 130.

(** The frame drawn by one iteration of [loop]: [updateDisplay] is called
    after the window branch and the motors, before the transmission. *)
Definition loopDisplay (currentMillis pulseValue : Z) (st : state)
  : list display_call :=
  let st := sampleWaveform pulseValue st in
  let st := detectPulse currentMillis pulseValue st in
  let st :=
    if windowElapsed currentMillis st then evaluateWindow currentMillis st
    else st in
  updateDisplay st.

(** 127 iterations 79 ms apart with the sensor stuck at 1023; a 128th at
    10033 ms ends the first window. *)
Definition stuck_high : list (Z * Z) :=
  (fun k => (79 * k, 1023)) <$> seqZ 0 127.

(** ** The statistics of [computeHRV] over a list of intervals

    The same arithmetic as in [computeHRV], as functions of the list of
    intervals alone: the number of intervals is the length of the list,
    the sums run over its elements and over its pairs of neighbours. *)

(** The pairs (x_{i-1}, x_i), i = 1 .. count - 1. *)
Definition adjacent (xs : list Z) : list (Z * Z) := zip xs (drop 1 xs).

Definition sumNN_of (xs : list Z) : spec_float :=
  fold_left (fun sum x => Float.add sum (Float.of_Z x)) xs Float.zero.

Definition sumSquareDiff_of (meanNN : spec_float) (xs : list Z) : spec_float :=
  fold_left
    (fun sum x =>
       let d := Float.sub (Float.of_Z x) meanNN in
       Float.of_double
         (Double.add (Double.of_float sum) (Double.pow2 (Double.of_float d))))
    xs Float.zero.

Definition sumSquareDiffSuccessive_of (xs : list Z) : spec_float :=
  fold_left
    (fun sum p =>
       let d := ULong.sub (snd p) (fst p) in
       Float.of_double
         (Double.add (Double.of_float sum) (Double.pow2 (Double.of_Z d))))
    (adjacent xs) Float.zero.

Definition sdnn_of (xs : list Z) : spec_float :=
  let count := Z.of_nat (length xs) in
  let meanNN := Float.div (sumNN_of xs) (Float.of_Z count) in
  Float.sqrt (Float.div (sumSquareDiff_of meanNN xs) (Float.of_Z (count - 1))).

(** The root that [computeHRV] converts to [int] for the RMSSD. *)
Definition rmssd_root (xs : list Z) : spec_float :=
  let count := Z.of_nat (length xs) in
  Float.sqrt (Float.div (sumSquareDiffSuccessive_of xs) (Float.of_Z (count - 1))).

Definition hrv_stats (xs : list Z) : spec_float * spec_float :=
  if Z.of_nat (length xs) <? 2 then (Float.of_Z 0, Float.of_Z 0)
  else (sdnn_of xs, Float.of_Z (Z.rem (Float.to_int (rmssd_root xs)) 1000)).

(** The values for which the conversion [int(x)] is defined: the zeros
    and the finite numbers whose truncation is an [int]. *)
Definition convertible_to_int (x : spec_float) : Prop :=
  match x with
  | S754_zero _ => True
  | S754_finite _ _ _ => Int.in_range (FP.trunc x)
  | _ => False
  end.

(** Above-threshold samples at the times whose successive differences,
    from 0, are [ds]. *)
Fixpoint beats_after (t0 : Z) (ds : list Z) : list (Z * Z) :=
  match ds with
  | [] => []
  | d :: ds' => (t0 + d, 600) :: beats_after (t0 + d) ds'
  end.

(** Beats whose intervals cycle through 800, 850, 900, 700, 750 ms. *)
Definition varied_beats (n : Z) : list (Z * Z) :=
  beats_after 0 ((fun k => 700 + 50 * ((k + 1) mod 5)) <$> seqZ 1 n).

(** ** Basic facts about the machine arithmetic *)

(** Goals of the form [Int.in_range z]. *)
Ltac int_range :=
  unfold Int.in_range, Int.min_signed, Int.max_signed in *; lia.

Lemma int_wrap_small z : Int.in_range z -> Int.wrap z = z.
Proof.
  unfold Int.in_range, Int.min_signed, Int.max_signed, Int.wrap.
  change (2 ^ 31) with 2147483648. change (2 ^ 32) with 4294967296.
  intros H. rewrite Z.mod_small; lia.
Qed.

Lemma ulong_sub_range a b : ULong.in_range (ULong.sub a b).
Proof.
  unfold ULong.in_range, ULong.sub, ULong.wrap, ULong.modulus.
  apply Z.mod_pos_bound. reflexivity.
Qed.

Lemma ulong_sub_small a b :
  0 <= a - b < 2 ^ 32 -> ULong.sub a b = a - b.
Proof.
  intros H. unfold ULong.sub, ULong.wrap, ULong.modulus.
  apply Z.mod_small. exact H.
Qed.

Lemma ring_next i :
  0 <= i < ECG_SAMPLE_SIZE ->
  Int.rem (Int.add i 1) ECG_SAMPLE_SIZE = (i + 1) mod ECG_SAMPLE_SIZE.
Proof.
  unfold ECG_SAMPLE_SIZE. intros H. unfold Int.rem, Int.add.
  rewrite int_wrap_small
    by int_range.
  apply Z.rem_mod_nonneg; lia.
Qed.

Lemma ring_next_range i :
  0 <= i < ECG_SAMPLE_SIZE ->
  0 <= Int.rem (Int.add i 1) ECG_SAMPLE_SIZE < ECG_SAMPLE_SIZE.
Proof.
  intros H. rewrite ring_next by exact H.
  apply Z.mod_pos_bound. reflexivity.
Qed.

Lemma beatAccepted_spec now s st :
  beatAccepted now s st = true <->
  UpperThreshold < s /\ 600 < ULong.sub now (lastBeatTime st).
Proof.
  unfold beatAccepted. rewrite andb_true_iff, !Z.ltb_lt. reflexivity.
Qed.

Lemma detectPulse_rejected now s st :
  beatAccepted now s st = false -> detectPulse now s st = st.
Proof. unfold detectPulse. intros ->. reflexivity. Qed.

(** ** Which globals each phase writes *)

Lemma computeHRV_writes st :
  exists a b, computeHRV st = set_rmssd a (set_sdnn b st).
Proof.
  unfold computeHRV. destruct (nnIndex st <? 2); eauto.
Qed.

Lemma estimateBPM_writes st : exists b, estimateBPM st = set_bpm b st.
Proof.
  unfold estimateBPM. destruct (0 <? pulseCount st); [eauto|].
  match goal with |- context [if ?c then _ else _] => destruct c end; eauto.
Qed.

Lemma flatlineGuard_writes st :
  exists b l, flatlineGuard st = set_stressLevel l (set_bpm b st).
Proof.
  unfold flatlineGuard. destruct (minimalVariation _); [eauto|].
  exists (bpm st), (stressLevel st). destruct st; reflexivity.
Qed.

Lemma evaluateWindow_writes now st :
  exists b sd rm l,
    evaluateWindow now st =
    mkState (lastBeatTime st) now b (ecgWaveform st) (ecgIndex st) 0 sd rm l
            (nnIntervals st) (nnIndex st) (lastTransmissionTime st).
Proof.
  unfold evaluateWindow.
  destruct (estimateBPM_writes (set_intervalStartTime now st)) as [b ->].
  destruct (computeHRV_writes (set_bpm b (set_intervalStartTime now st)))
    as (rm & sd & ->).
  match goal with |- context [flatlineGuard ?x] =>
    destruct (flatlineGuard_writes x) as (b' & l & ->) end.
  exists b', sd, rm, l. reflexivity.
Qed.

(** The detector's variables and the waveform buffer after one iteration
    of [loop] are those left by [sampleWaveform] and [detectPulse]: the
    window branch and the transmission do not write them. *)
Lemma loop_detector t s w :
  let st := detectPulse t s (sampleWaveform s (fst w)) in
  let st' := fst (loop t s w) in
  lastBeatTime st' = lastBeatTime st /\
  nnIntervals st' = nnIntervals st /\
  nnIndex st' = nnIndex st /\
  ecgWaveform st' = ecgWaveform st /\
  ecgIndex st' = ecgIndex st.
Proof.
  destruct w as [st0 dev]. unfold loop. cbn [fst].
  set (st := detectPulse t s (sampleWaveform s st0)).
  assert (H : exists st1,
             (if windowElapsed t st then evaluateWindow t st else st) = st1 /\
             lastBeatTime st1 = lastBeatTime st /\
             nnIntervals st1 = nnIntervals st /\ nnIndex st1 = nnIndex st /\
             ecgWaveform st1 = ecgWaveform st /\ ecgIndex st1 = ecgIndex st).
  { destruct (windowElapsed t st).
    - destruct (evaluateWindow_writes t st) as (b & sd & rm & l & ->).
      eexists; split; [reflexivity|]. cbn. auto.
    - eexists; split; [reflexivity|]. auto. }
  destruct H as (st1 & -> & H1 & H2 & H3 & H4 & H5).
  destruct (transmissionInterval <=? _); cbn; auto.
Qed.

Lemma sampleWaveform_detector s st :
  lastBeatTime (sampleWaveform s st) = lastBeatTime st /\
  nnIntervals (sampleWaveform s st) = nnIntervals st /\
  nnIndex (sampleWaveform s st) = nnIndex st /\
  pulseCount (sampleWaveform s st) = pulseCount st.
Proof. unfold sampleWaveform. cbn. auto. Qed.

(** ** The pulse detector *)

(** The state left by an accepted beat, written out. *)
Lemma detectPulse_accepted now s st :
  beatAccepted now s st = true ->
  detectPulse now s st =
  mkState now (intervalStartTime st) (bpm st) (ecgWaveform st) (ecgIndex st)
          (Int.add (pulseCount st) 1) (sdnn st) (rmssd st) (stressLevel st)
          (aset (nnIntervals st) (nnIndex st)
                (ULong.sub now (lastBeatTime st)))
          (Int.rem (Int.add (nnIndex st) 1) ECG_SAMPLE_SIZE)
          (lastTransmissionTime st).
Proof. unfold detectPulse. intros ->. reflexivity. Qed.

(** Inside the refractory period nothing is accepted. *)
Lemma refractory_rejects t0 t s st :
  lastBeatTime st = t0 -> ULong.sub t t0 <= 600 ->
  beatAccepted t s st = false.
Proof.
  intros <- H. unfold beatAccepted.
  apply andb_false_iff. right. apply Z.ltb_ge. exact H.
Qed.

Definition within_refractory (t0 : Z) (input : Z * Z) : Prop :=
  ULong.sub (fst input) t0 <= 600.

Lemma refractory_detectAll t0 later st :
  lastBeatTime st = t0 -> Forall (within_refractory t0) later ->
  detectAll later st = st.
Proof.
  intros Ht H. induction H as [|[t s] later Hx _ IH]; [reflexivity|].
  unfold detectAll in *. cbn [fold_left].
  rewrite (detectPulse_rejected t s st); [exact IH|].
  eapply refractory_rejects; eauto.
Qed.

Lemma refractory_run t0 later w :
  lastBeatTime (fst w) = t0 -> Forall (within_refractory t0) later ->
  recorded later w = [] /\
  lastBeatTime (fst (run later w)) = lastBeatTime (fst w) /\
  nnIntervals (fst (run later w)) = nnIntervals (fst w) /\
  nnIndex (fst (run later w)) = nnIndex (fst w).
Proof.
  intros Ht H. revert w Ht.
  induction H as [|[t s] later Hx _ IH]; intros w Ht; [cbn; auto|].
  destruct (sampleWaveform_detector s (fst w)) as (S1 & S2 & S3 & _).
  assert (Hrej : beatAccepted t s (sampleWaveform s (fst w)) = false).
  { eapply refractory_rejects; [|exact Hx]. congruence. }
  destruct (loop_detector t s w) as (L1 & L2 & L3 & _).
  rewrite (detectPulse_rejected _ _ _ Hrej) in L1, L2, L3.
  cbn [recorded run fold_left]. rewrite Hrej. cbn [app].
  destruct (IH (loop t s w)) as (R0 & R1 & R2 & R3); [congruence|].
  unfold run in *. rewrite R0, R1, R2, R3. repeat split; congruence.
Qed.

(** C1 (as amended).  A beat is accepted exactly when the sample is above
    560 and more than 600 ms (modulo 2^32) have passed since
    [lastBeatTime].  An accepted beat stores [now - lastBeatTime] at the
    write index, advances the index modulo 128, sets [lastBeatTime] to
    [now] and increments [pulseCount], and changes nothing else; a
    rejected sample changes nothing.  After an accepted beat at [now],
    every later sample at most 600 ms after it, whatever its value, is
    rejected: the detector's variables stay as the accepted beat left
    them and no interval is recorded. *)
Theorem pulse_detector_contract (now s : Z) (st : state) :
  0 <= nnIndex st < ECG_SAMPLE_SIZE ->
  Int.min_signed <= pulseCount st < Int.max_signed ->
  let st' := detectPulse now s st in
  let nnInterval := (now - lastBeatTime st) mod 2 ^ 32 in
  (beatAccepted now s st = true <-> 560 < s /\ 600 < nnInterval) /\
  (0 <= now - lastBeatTime st < 2 ^ 32 -> nnInterval = now - lastBeatTime st) /\
  (beatAccepted now s st = true ->
     st' = mkState now (intervalStartTime st) (bpm st) (ecgWaveform st)
                   (ecgIndex st) (pulseCount st + 1) (sdnn st) (rmssd st)
                   (stressLevel st)
                   (<[Z.to_nat (nnIndex st) := nnInterval]> (nnIntervals st))
                   ((nnIndex st + 1) mod 128) (lastTransmissionTime st)) /\
  (beatAccepted now s st = false -> st' = st) /\
  (beatAccepted now s st = true ->
     forall later : list (Z * Z),
       Forall (fun input => (fst input - now) mod 2 ^ 32 <= 600) later ->
       detectAll later st' = st' /\
       forall dev,
         recorded later (st', dev) = [] /\
         lastBeatTime (fst (run later (st', dev))) = now /\
         nnIntervals (fst (run later (st', dev))) = nnIntervals st' /\
         nnIndex (fst (run later (st', dev))) = nnIndex st').
Proof.
  intros Hidx Hcnt st' nnInterval.
  assert (Hacc : beatAccepted now s st = true ->
                 lastBeatTime st' = now).
  { intros H. subst st'. rewrite (detectPulse_accepted _ _ _ H). reflexivity. }
  split; [apply beatAccepted_spec|].
  split; [intros H; apply Z.mod_small; exact H|].
  split.
  { intros H. subst st'. rewrite (detectPulse_accepted _ _ _ H).
    rewrite ring_next by exact Hidx.
    unfold Int.add. rewrite int_wrap_small by int_range.
    unfold aset. destruct (Z.leb_spec 0 (nnIndex st)); [reflexivity|lia]. }
  split; [apply detectPulse_rejected|].
  intros H later Hlater. specialize (Hacc H).
  split; [eapply refractory_detectAll; eauto|].
  intros dev.
  destruct (refractory_run now later (st', dev) Hacc Hlater) as (R0 & R1 & R2 & R3).
  cbn [fst] in *. rewrite R1. auto.
Qed.

Lemma pulse_detector_contract_witness :
  let st' := detectPulse 900 600 init in
  (beatAccepted 900 600 init = true <-> 560 < 600 /\ 600 < (900 - 0) mod 2 ^ 32) /\
  nnIntervals st' !! 0%nat = Some 900 /\ nnIndex st' = 1 /\ pulseCount st' = 1 /\
  detectAll [(1000, 1023); (1500, 700)] st' = st'.
Proof.
  assert (Hidx : 0 <= nnIndex init < ECG_SAMPLE_SIZE) by (vm_compute; split; congruence).
  assert (Hcnt : Int.min_signed <= pulseCount init < Int.max_signed)
    by (vm_compute; split; congruence).
  destruct (pulse_detector_contract 900 600 init Hidx Hcnt)
    as (H1 & _ & H2 & _ & H4).
  assert (Hacc : beatAccepted 900 600 init = true) by reflexivity.
  cbv zeta. split; [exact H1|].
  rewrite (H2 Hacc). split; [reflexivity|]. split; [reflexivity|].
  split; [reflexivity|].
  rewrite <- (H2 Hacc). apply (H4 Hacc).
  repeat constructor; vm_compute; congruence.
Defined.

(** C1 as stated fails.  After a beat accepted at 1000 ms, the samples at
    1500 ms and 1700 ms are both above the threshold and 200 ms apart; the
    first is rejected (500 ms after the beat) and the second is accepted
    (700 ms after it): it is the second that is recorded, and it changes
    [lastBeatTime], the history and [pulseCount]. *)
Lemma refractory_gating_counterexample :
  let st0 := detectPulse 1000 600 init in
  let st1 := detectPulse 1500 600 st0 in
  let st2 := detectPulse 1700 600 st1 in
  (UpperThreshold < 600 /\ 1700 - 1500 < 600 /\
   st1 = st0 /\
   lastBeatTime st1 = 1000 /\ lastBeatTime st2 = 1700 /\
   take 2 (nnIntervals st1) = [1000; 0] /\
   take 2 (nnIntervals st2) = [1000; 700] /\
   pulseCount st1 = 1 /\ pulseCount st2 = 2) /\
  ~ (forall (st : state) (t1 s1 t2 s2 : Z),
        UpperThreshold < s1 -> UpperThreshold < s2 ->
        0 <= t1 <= t2 -> t2 - t1 < 600 ->
        let st1 := detectPulse t1 s1 st in
        let st2 := detectPulse t2 s2 st1 in
        lastBeatTime st2 = lastBeatTime st1 /\
        nnIntervals st2 = nnIntervals st1 /\
        pulseCount st2 = pulseCount st1).
Proof.
  split; [vm_compute; repeat split; congruence|].
  intros H.
  destruct (H (detectPulse 1000 600 init) 1500 600 1700 600) as (H1 & _);
    try (vm_compute; congruence).
  - split; vm_compute; congruence.
  - vm_compute in H1. discriminate H1.
Qed.

(** ** The interval history along a run *)

Lemma recorded_above_refractory inputs w :
  Forall (fun r => 600 < snd r) (recorded inputs w).
Proof.
  revert w. induction inputs as [|[t s] rest IH]; intros w; [constructor|].
  cbn [recorded]. apply Forall_app. split; [|apply IH].
  destruct (beatAccepted t s _) eqn:H; [|constructor].
  apply beatAccepted_spec in H. repeat constructor. cbn. tauto.
Qed.

Lemma first_recorded_from_zero inputs w :
  lastBeatTime (fst w) = 0 ->
  match recorded inputs w with
  | [] => True
  | (t, x) :: _ => x = t mod 2 ^ 32
  end.
Proof.
  revert w. induction inputs as [|[t s] rest IH]; intros w H0; [exact I|].
  cbn [recorded].
  destruct (sampleWaveform_detector s (fst w)) as (S1 & _).
  destruct (beatAccepted t s _) eqn:H.
  - cbn [app]. rewrite S1, H0.
    unfold ULong.sub, ULong.wrap, ULong.modulus. f_equal. lia.
  - cbn [app]. apply IH.
    destruct (loop_detector t s w) as (L1 & _).
    rewrite (detectPulse_rejected _ _ _ H) in L1. congruence.
Qed.

Lemma detectPulse_history t s st :
  nnIntervals (detectPulse t s st) = nnIntervals st \/
  exists x, 600 < x /\
            nnIntervals (detectPulse t s st) = aset (nnIntervals st) (nnIndex st) x.
Proof.
  destruct (beatAccepted t s st) eqn:H.
  - right. rewrite (detectPulse_accepted _ _ _ H). cbn.
    apply beatAccepted_spec in H. eexists; split; [apply H|reflexivity].
  - left. rewrite (detectPulse_rejected _ _ _ H). reflexivity.
Qed.

Lemma history_entries_run inputs w :
  Forall (fun x => x = 0 \/ 600 < x) (nnIntervals (fst w)) ->
  Forall (fun x => x = 0 \/ 600 < x) (nnIntervals (fst (run inputs w))).
Proof.
  revert w. induction inputs as [|[t s] rest IH]; intros w H; [exact H|].
  unfold run in *. cbn [fold_left]. apply IH.
  destruct (loop_detector t s w) as (_ & L2 & _). rewrite L2.
  destruct (sampleWaveform_detector s (fst w)) as (_ & S2 & _).
  destruct (detectPulse_history t s (sampleWaveform s (fst w)))
    as [-> | (x & Hx & ->)]; rewrite S2; [exact H|].
  unfold aset. destruct (0 <=? _); [|exact H].
  apply Forall_insert; auto.
Qed.

(** ** Array bounds are respected *)

Lemma aset_length a i v : length (aset a i v) = length a.
Proof. unfold aset. destruct (0 <=? i); [apply length_insert|reflexivity]. Qed.

Lemma sampleWaveform_wf s st : wf st -> wf (sampleWaveform s st).
Proof.
  intros [H1 H2 H3 H4]. unfold sampleWaveform. constructor; cbn; auto.
  - apply ring_next_range. exact H1.
  - rewrite aset_length. exact H3.
Qed.

Lemma detectPulse_wf t s st : wf st -> wf (detectPulse t s st).
Proof.
  intros [H1 H2 H3 H4]. unfold detectPulse.
  destruct (beatAccepted t s st); constructor; cbn; auto.
  - apply ring_next_range. exact H2.
  - rewrite aset_length. exact H4.
Qed.

Lemma loop_wf t s w : wf (fst w) -> wf (fst (loop t s w)).
Proof.
  intros H. destruct (loop_detector t s w) as (_ & L2 & L3 & L4 & L5).
  pose proof (detectPulse_wf t s _ (sampleWaveform_wf s _ H)) as [H1 H2 H3 H4].
  constructor; congruence.
Qed.

Lemma run_wf inputs w : wf (fst w) -> wf (fst (run inputs w)).
Proof.
  revert w. induction inputs as [|[t s] rest IH]; intros w H; [exact H|].
  unfold run in *. cbn [fold_left]. apply IH, loop_wf, H.
Qed.

Lemma init_wf : wf init.
Proof. constructor; cbn; try reflexivity; unfold ECG_SAMPLE_SIZE; lia. Qed.

(** ** The ring of intervals *)

Lemma ring_write_length i xs a : length (ring_write i xs a) = length a.
Proof.
  revert i a. induction xs as [|x xs IH]; intros i a; [reflexivity|].
  cbn. rewrite IH. apply length_insert.
Qed.

Lemma ring_write_app i xs ys a :
  0 <= i < ECG_SAMPLE_SIZE ->
  ring_write i (xs ++ ys) a =
  ring_write ((i + Z.of_nat (length xs)) mod ECG_SAMPLE_SIZE) ys
             (ring_write i xs a).
Proof.
  revert i a. induction xs as [|x xs IH]; intros i a Hi.
  - cbn. rewrite Z.add_0_r, Z.mod_small by exact Hi. reflexivity.
  - cbn [app ring_write length]. rewrite IH.
    + f_equal. rewrite Zplus_mod_idemp_l. f_equal. lia.
    + apply Z.mod_pos_bound. reflexivity.
Qed.



(** Every slot of the ring after [n] writes from slot 0: the last value
    written there, if any. *)
Lemma ring_write_lookup xs a :
  length a = Z.to_nat ECG_SAMPLE_SIZE ->
  let n := Z.of_nat (length xs) in
  let r := n mod ECG_SAMPLE_SIZE in
  forall j : nat,
    Z.of_nat j < ECG_SAMPLE_SIZE ->
    ring_write 0 xs a !! j =
    if decide (Z.of_nat j < r) then xs !! Z.to_nat (n - r + Z.of_nat j)
    else if decide (ECG_SAMPLE_SIZE <= n)
         then xs !! Z.to_nat (n - r - ECG_SAMPLE_SIZE + Z.of_nat j)
         else a !! j.
Proof.
  intros Ha. induction xs as [|x xs IH] using rev_ind; intros n r j Hj.
  - subst n r. cbn [length]. change (Z.of_nat 0) with 0.
    rewrite Zmod_0_l. unfold ECG_SAMPLE_SIZE.
    rewrite decide_False by lia. rewrite decide_False by lia. reflexivity.
  - subst n r. rewrite length_app in *. cbn [length] in *.
    set (n := Z.of_nat (length xs)) in *.
    replace (Z.of_nat (length xs + 1)) with (n + 1) in * by lia.
    rewrite ring_write_app by (unfold ECG_SAMPLE_SIZE; lia).
    rewrite Z.add_0_l. fold n. cbn [ring_write].
    specialize (IH j Hj). cbv zeta in IH.
    unfold ECG_SAMPLE_SIZE in *.
    pose proof (Z.mod_pos_bound n 128 eq_refl) as Hr.
    assert (Hn : n = 128 * (n / 128) + n mod 128) by (apply Z.div_mod; lia).
    assert (Hq : 0 <= n / 128) by (apply Z.div_pos; lia).
    assert (Hr' : (n + 1) mod 128 =
                  if decide (n mod 128 = 127) then 0 else n mod 128 + 1).
    { rewrite <- Zplus_mod_idemp_l.
      destruct (decide (n mod 128 = 127)) as [E|E].
      - rewrite E. reflexivity.
      - apply Z.mod_small. lia. }
    rewrite Hr'. set (r := n mod 128) in *.
    destruct (decide (j = Z.to_nat r)) as [->|Hne].
    + rewrite list_lookup_insert_eq by (rewrite ring_write_length, Ha; lia).
      rewrite Z2Nat.id by lia.
      symmetry. repeat case_decide; try lia;
        (rewrite lookup_app_r by lia);
        match goal with |- [x] !! ?k = _ => replace k with 0%nat by lia end;
        reflexivity.
    + rewrite list_lookup_insert_ne by congruence. rewrite IH.
      assert (Hjr : Z.of_nat j <> r) by lia.
      repeat case_decide; try lia;
        try (rewrite lookup_app_l by lia); try reflexivity;
        f_equal; lia.
Qed.

(** The history after a run is the ring written with the recorded
    intervals, in order. *)
Lemma run_history inputs w :
  wf (fst w) ->
  let xs := (recorded inputs w).*2 in
  nnIndex (fst (run inputs w)) =
    (nnIndex (fst w) + Z.of_nat (length xs)) mod ECG_SAMPLE_SIZE /\
  nnIntervals (fst (run inputs w)) =
    ring_write (nnIndex (fst w)) xs (nnIntervals (fst w)).
Proof.
  revert w. induction inputs as [|[t s] rest IH]; intros w Hwf.
  - cbn. destruct Hwf as [_ H _ _].
    rewrite Z.add_0_r, Z.mod_small by exact H. auto.
  - cbn [recorded]. unfold run in *. cbn [fold_left].
    destruct (IH (loop t s w) (loop_wf t s w Hwf)) as (I1 & I2).
    cbv zeta in I1, I2. rewrite I1, I2. clear I1 I2 IH.
    destruct (loop_detector t s w) as (_ & L2 & L3 & _). rewrite L2, L3.
    destruct (sampleWaveform_detector s (fst w)) as (S1 & S2 & S3 & _).
    pose proof (wf_nnIndex _ Hwf) as Hi.
    destruct (beatAccepted t s (sampleWaveform s (fst w))) eqn:H.
    + rewrite (detectPulse_accepted _ _ _ H). cbn [nnIndex nnIntervals].
      rewrite S1, S2, S3, ring_next by exact Hi.
      cbn [app fmap list_fmap snd length ring_write].
      rewrite Zplus_mod_idemp_l. split; [f_equal; lia|].
      unfold aset. destruct (Z.leb_spec 0 (nnIndex (fst w))); [reflexivity|lia].
    + rewrite (detectPulse_rejected _ _ _ H), S2, S3. cbn [app]. auto.
Qed.

(** ** The first beat and the values stored in the history *)

(** Before the first beat nothing is stored: a reading is rejected unless
    its sample is above the threshold more than 600 ms after power-up. *)
Lemma quiet_run quiet w :
  lastBeatTime (fst w) = 0 ->
  Forall (fun i => ~ (UpperThreshold < snd i /\ 600 < fst i mod 2 ^ 32)) quiet ->
  lastBeatTime (fst (run quiet w)) = 0 /\
  nnIntervals (fst (run quiet w)) = nnIntervals (fst w) /\
  nnIndex (fst (run quiet w)) = nnIndex (fst w).
Proof.
  intros H0 Hq. revert w H0.
  induction Hq as [|[t s] quiet Hx _ IH]; intros w H0; [cbn; auto|].
  destruct (sampleWaveform_detector s (fst w)) as (S1 & S2 & S3 & _).
  assert (Hrej : beatAccepted t s (sampleWaveform s (fst w)) = false).
  { destruct (beatAccepted t s (sampleWaveform s (fst w))) eqn:H; [|reflexivity].
    apply beatAccepted_spec in H. rewrite S1, H0 in H.
    unfold ULong.sub, ULong.wrap, ULong.modulus in H. rewrite Z.sub_0_r in H.
    contradiction. }
  destruct (loop_detector t s w) as (L1 & L2 & L3 & _).
  rewrite (detectPulse_rejected _ _ _ Hrej) in L1, L2, L3.
  unfold run in *. cbn [fold_left].
  destruct (IH (loop t s w)) as (R1 & R2 & R3); [congruence|].
  rewrite R1, R2, R3. repeat split; congruence.
Qed.

(** The first beat after power-up, on the history itself. *)
Lemma first_beat_stored quiet t s dev :
  Forall (fun i => ~ (UpperThreshold < snd i /\ 600 < fst i mod 2 ^ 32)) quiet ->
  UpperThreshold < s -> 600 < t mod 2 ^ 32 ->
  let st := fst (run (quiet ++ [(t, s)]) (init, dev)) in
  nnIntervals st = <[0%nat := t mod 2 ^ 32]> (replicate 128 0) /\
  nnIndex st = 1 /\ lastBeatTime st = t.
Proof.
  intros Hq Hs Ht st. subst st. unfold run. rewrite fold_left_app.
  cbn [fold_left]. fold (run quiet (init, dev)).
  destruct (quiet_run quiet (init, dev) eq_refl Hq) as (Q1 & Q2 & Q3).
  set (w := run quiet (init, dev)) in *.
  destruct (loop_detector t s w) as (L1 & L2 & L3 & _).
  destruct (sampleWaveform_detector s (fst w)) as (S1 & S2 & S3 & _).
  assert (Hacc : beatAccepted t s (sampleWaveform s (fst w)) = true).
  { apply beatAccepted_spec. rewrite S1, Q1. split; [exact Hs|].
    unfold ULong.sub, ULong.wrap, ULong.modulus. rewrite Z.sub_0_r. exact Ht. }
  rewrite (detectPulse_accepted _ _ _ Hacc) in L1, L2, L3.
  cbn [lastBeatTime nnIntervals nnIndex] in L1, L2, L3.
  rewrite S1, S2, S3, Q1, Q2, Q3 in *. cbn [fst nnIntervals nnIndex init] in *.
  rewrite L1, L2, L3. split; [|split; reflexivity].
  unfold ULong.sub, ULong.wrap, ULong.modulus. rewrite Z.sub_0_r. reflexivity.
Qed.

Lemma detectPulse_stores t s st :
  0 <= nnIndex st < ECG_SAMPLE_SIZE ->
  length (nnIntervals st) = Z.to_nat ECG_SAMPLE_SIZE ->
  beatAccepted t s st = true ->
  nnIntervals (detectPulse t s st) !! Z.to_nat (nnIndex st)
    = Some ((t - lastBeatTime st) mod 2 ^ 32) /\
  600 < (t - lastBeatTime st) mod 2 ^ 32.
Proof.
  intros Hi Hlen Hacc. rewrite (detectPulse_accepted _ _ _ Hacc).
  cbn [nnIntervals]. unfold aset.
  destruct (Z.leb_spec 0 (nnIndex st)); [|lia].
  split; [apply list_lookup_insert_eq; unfold ECG_SAMPLE_SIZE in *; lia|].
  apply beatAccepted_spec in Hacc. apply Hacc.
Qed.

(** C7.  Every interval recorded during a run is greater than the 600 ms
    refractory period, hence at least 600, and the recorded intervals are
    what the history holds: after a run from power-up [nnIntervals] is the
    ring of 128 zeros written with them in order, so each slot holds 0
    (never written) or a value above 600; an accepted beat stores
    [now - lastBeatTime] (modulo 2^32), a value above 600, at the write
    index.  The first beat after power-up, at time [t], is measured from
    [lastBeatTime = 0]: whatever readings were rejected before it, slot 0
    then holds [t] itself (modulo 2^32), with no special case. *)
Theorem nn_interval_lower_bound (inputs : list (Z * Z)) (w : state * device)
  (dev : device) :
  Forall (fun r => 600 <= snd r /\ 600 < snd r) (recorded inputs w) /\
  Forall (fun x => x = 0 \/ 600 < x)
         (nnIntervals (fst (run inputs (init, dev)))) /\
  match recorded inputs (init, dev) with
  | [] => True
  | (t, x) :: _ => x = t mod 2 ^ 32 /\ 600 < x /\ (0 <= t < 2 ^ 32 -> x = t)
  end /\
  (nnIntervals (fst (run inputs (init, dev))) =
     ring_write 0 (recorded inputs (init, dev)).*2 (replicate 128 0) /\
   nnIndex (fst (run inputs (init, dev))) =
     Z.of_nat (length (recorded inputs (init, dev))) mod 128) /\
  (forall t s st,
     0 <= nnIndex st < 128 -> length (nnIntervals st) = 128%nat ->
     beatAccepted t s st = true ->
     nnIntervals (detectPulse t s st) !! Z.to_nat (nnIndex st)
       = Some ((t - lastBeatTime st) mod 2 ^ 32) /\
     600 < (t - lastBeatTime st) mod 2 ^ 32) /\
  (forall quiet t s,
     Forall (fun i => ~ (560 < snd i /\ 600 < fst i mod 2 ^ 32)) quiet ->
     560 < s -> 600 < t mod 2 ^ 32 ->
     let st := fst (run (quiet ++ [(t, s)]) (init, dev)) in
     nnIntervals st = <[0%nat := t mod 2 ^ 32]> (replicate 128 0) /\
     nnIndex st = 1 /\ lastBeatTime st = t).
Proof.
  split.
  { eapply Forall_impl; [apply recorded_above_refractory|].
    cbn. intros; lia. }
  split.
  { apply history_entries_run. cbn.
    apply Forall_forall. intros x Hx. left.
    apply elem_of_replicate in Hx. tauto. }
  split.
  { pose proof (first_recorded_from_zero inputs (init, dev) eq_refl) as H1.
    pose proof (recorded_above_refractory inputs (init, dev)) as H2.
    destruct (recorded inputs (init, dev)) as [|[t x] rest]; [exact I|].
    split; [exact H1|]. split; [inversion H2; subst; assumption|].
    intros Ht. rewrite H1. apply Z.mod_small. exact Ht. }
  split.
  { destruct (run_history inputs (init, dev) init_wf) as (H1 & H2).
    cbv zeta in H1, H2. cbn [fst nnIndex nnIntervals init] in H1, H2.
    rewrite Z.add_0_l, length_fmap in H1. split; [exact H2|exact H1]. }
  split.
  { intros t s st Hi Hlen Hacc. apply detectPulse_stores; assumption. }
  intros quiet t s Hq Hs Ht. apply first_beat_stored; assumption.
Qed.

Lemma nn_interval_lower_bound_witness :
  let st := fst (run ([(100, 600); (300, 0); (600, 1023)] ++ [(5000, 600)])
                     (init, device0)) in
  nnIntervals st !! 0%nat = Some 5000 /\ nnIndex st = 1 /\
  lastBeatTime st = 5000 /\
  take 2 (nnIntervals
            (fst (run [(5000, 600); (5100, 600); (5800, 600)] (init, device0))))
    = [5000; 800].
Proof.
  destruct (nn_interval_lower_bound [] (init, device0) device0)
    as (_ & _ & _ & _ & _ & H).
  destruct (H [(100, 600); (300, 0); (600, 1023)] 5000 600) as (H1 & H2 & H3).
  - repeat constructor; cbn; intros [Ha Hb]; vm_compute in Ha, Hb; congruence.
  - reflexivity.
  - reflexivity.
  - cbv zeta. rewrite H1. split; [reflexivity|].
    split; [exact H2|]. split; [exact H3|]. reflexivity.
Defined.

(** ** What [computeHRV] reads *)

Lemma for_range_ext {A} lo hi (f g : Z -> A -> A) acc :
  (forall i a, lo <= i < hi -> f i a = g i a) ->
  for_range lo hi f acc = for_range lo hi g acc.
Proof.
  intros H. unfold for_range.
  assert (HF : Forall (fun i => forall a, f i a = g i a) (seqZ lo (hi - lo))).
  { apply Forall_seqZ. intros i Hi a. apply H. lia. }
  revert acc. induction HF as [|i l Hi _ IH]; intros acc; [reflexivity|].
  cbn [fold_left]. rewrite Hi. apply IH.
Qed.

(** [computeHRV] reads the write index and the slots below it, nothing
    else. *)
Lemma computeHRV_ext st1 st2 :
  nnIndex st1 = nnIndex st2 ->
  (forall i, 0 <= i < nnIndex st1 ->
             aget (nnIntervals st1) i = aget (nnIntervals st2) i) ->
  sdnn (computeHRV st1) = sdnn (computeHRV st2) /\
  rmssd (computeHRV st1) = rmssd (computeHRV st2).
Proof.
  intros Hn Hget. unfold computeHRV. rewrite <- Hn.
  destruct (nnIndex st1 <? 2); [cbn; auto|].
  cbn [sdnn rmssd set_sdnn set_rmssd].
  assert (Hsum :
    for_range 0 (nnIndex st1)
      (fun i sum => Float.add sum (Float.of_Z (aget (nnIntervals st1) i)))
      Float.zero =
    for_range 0 (nnIndex st1)
      (fun i sum => Float.add sum (Float.of_Z (aget (nnIntervals st2) i)))
      Float.zero).
  { apply for_range_ext. intros i a Hi. rewrite Hget by exact Hi. reflexivity. }
  rewrite Hsum. split.
  - do 2 f_equal. apply for_range_ext. intros i a Hi.
    rewrite Hget by exact Hi. reflexivity.
  - do 5 f_equal. apply for_range_ext. intros i a Hi.
    rewrite (Hget i), (Hget (i - 1)) by lia. reflexivity.
Qed.

Lemma aget_take a n i :
  0 <= i < n -> aget (take (Z.to_nat n) a) i = aget a i.
Proof.
  intros Hi. unfold aget. destruct (0 <=? i); [|reflexivity].
  rewrite !list_lookup_total_alt, lookup_take_lt by lia. reflexivity.
Qed.

Lemma computeHRV_prefix st :
  0 <= nnIndex st ->
  (Z.to_nat (nnIndex st) <= length (nnIntervals st))%nat ->
  (sdnn (computeHRV st), rmssd (computeHRV st)) =
  hrv_on (take (Z.to_nat (nnIndex st)) (nnIntervals st)).
Proof.
  intros H0 Hlen. unfold hrv_on.
  match goal with |- _ = (sdnn (computeHRV ?s), _) => set (st2 := s) end.
  destruct (computeHRV_ext st st2) as (-> & ->); [| |reflexivity].
  - subst st2. cbn [nnIndex set_nnIndex]. rewrite length_take. lia.
  - intros i Hi. subst st2. cbn [nnIntervals set_nnIndex set_nnIntervals].
    symmetry. apply aget_take. exact Hi.
Qed.


(** ** The statistics as functions of the stored intervals *)

Lemma for_range_fmap {A B} lo hi (F : Z -> B) (g : B -> A -> A) acc :
  for_range lo hi (fun i a => g (F i) a) acc =
  fold_left (fun a y => g y a) (F <$> seqZ lo (hi - lo)) acc.
Proof.
  unfold for_range. revert acc.
  induction (seqZ lo (hi - lo)) as [|i l IH]; intros acc; [reflexivity|].
  cbn. apply IH.
Qed.

Lemma aget_lookup xs (i : nat) x :
  xs !! i = Some x -> aget xs (Z.of_nat i) = x.
Proof.
  intros H. unfold aget. destruct (Z.leb_spec 0 (Z.of_nat i)); [|lia].
  rewrite Nat2Z.id. apply list_lookup_total_correct. exact H.
Qed.

Lemma aget_seqZ xs : aget xs <$> seqZ 0 (Z.of_nat (length xs)) = xs.
Proof.
  apply list_eq. intros i. rewrite list_lookup_fmap.
  destruct (decide (i < length xs)%nat) as [Hi|Hi].
  - rewrite lookup_seqZ_lt by lia.
    destruct (lookup_lt_is_Some_2 xs i Hi) as [x Hx]. rewrite Hx.
    cbn. rewrite Z.add_0_l, (aget_lookup _ _ _ Hx). reflexivity.
  - rewrite lookup_seqZ_ge by lia. symmetry. apply lookup_ge_None_2. lia.
Qed.

Lemma adjacent_seqZ xs :
  (fun i => (aget xs (i - 1), aget xs i))
    <$> seqZ 1 (Z.of_nat (length xs) - 1)
  = adjacent xs.
Proof.
  unfold adjacent. apply list_eq. intros i.
  rewrite list_lookup_fmap, lookup_zip_with, lookup_drop.
  destruct (decide (S i < length xs)%nat) as [Hi|Hi].
  - rewrite lookup_seqZ_lt by lia.
    destruct (lookup_lt_is_Some_2 xs i ltac:(lia)) as [x Hx].
    destruct (lookup_lt_is_Some_2 xs (S i) Hi) as [y Hy].
    replace (1 + i)%nat with (S i) by lia. rewrite Hx, Hy. cbn.
    replace (1 + Z.of_nat i - 1) with (Z.of_nat i) by lia.
    replace (1 + Z.of_nat i) with (Z.of_nat (S i)) by lia.
    rewrite (aget_lookup _ _ _ Hx), (aget_lookup _ _ _ Hy). reflexivity.
  - rewrite lookup_seqZ_ge by lia. cbn.
    replace (1 + i)%nat with (S i) by lia.
    rewrite (lookup_ge_None_2 xs (S i)) by lia.
    destruct (xs !! i); reflexivity.
Qed.

(** On a history that holds exactly [xs], with the write index at their
    number, [computeHRV] computes the statistics of the list. *)
Lemma hrv_on_stats xs :
  Z.of_nat (length xs) <= Int.max_signed -> hrv_on xs = hrv_stats xs.
Proof.
  intros Hmax. unfold hrv_on, hrv_stats, computeHRV.
  cbn [nnIndex nnIntervals set_nnIndex set_nnIntervals].
  set (n := Z.of_nat (length xs)) in *.
  destruct (n <? 2) eqn:Hn; [reflexivity|]. apply Z.ltb_ge in Hn.
  cbn [sdnn rmssd set_sdnn set_rmssd]. cbv zeta.
  assert (Hsub : Int.sub n 1 = n - 1).
  { unfold Int.sub. apply int_wrap_small. int_range. }
  rewrite Hsub. unfold Int.rem.
  assert (H1 : for_range 0 n
                 (fun i sum => Float.add sum (Float.of_Z (aget xs i)))
                 Float.zero = sumNN_of xs).
  { etrans; [apply (for_range_fmap 0 n (aget xs)
                      (fun x sum => Float.add sum (Float.of_Z x)))|].
    rewrite Z.sub_0_r. unfold n. rewrite aget_seqZ. reflexivity. }
  rewrite H1.
  assert (H2 : forall m,
            for_range 0 n
              (fun i sum =>
                 Float.of_double
                   (Double.add (Double.of_float sum)
                      (Double.pow2
                         (Double.of_float (Float.sub (Float.of_Z (aget xs i)) m)))))
              Float.zero = sumSquareDiff_of m xs).
  { intros m.
    etrans; [apply (for_range_fmap 0 n (aget xs)
                      (fun x sum =>
                         Float.of_double
                           (Double.add (Double.of_float sum)
                              (Double.pow2
                                 (Double.of_float (Float.sub (Float.of_Z x) m))))))|].
    rewrite Z.sub_0_r. unfold n. rewrite aget_seqZ. reflexivity. }
  rewrite H2.
  assert (H3 : for_range 1 n
                 (fun i sum =>
                    Float.of_double
                      (Double.add (Double.of_float sum)
                         (Double.pow2
                            (Double.of_Z (ULong.sub (aget xs i) (aget xs (i - 1)))))))
                 Float.zero = sumSquareDiffSuccessive_of xs).
  { etrans; [apply (for_range_fmap 1 n
                      (fun i => (aget xs (i - 1), aget xs i))
                      (fun p sum =>
                         Float.of_double
                           (Double.add (Double.of_float sum)
                              (Double.pow2
                                 (Double.of_Z (ULong.sub (snd p) (fst p)))))))|].
    unfold n. rewrite adjacent_seqZ. reflexivity. }
  rewrite H3. reflexivity.
Qed.

Lemma computeHRV_stats st :
  0 <= nnIndex st <= ECG_SAMPLE_SIZE ->
  (Z.to_nat (nnIndex st) <= length (nnIntervals st))%nat ->
  (sdnn (computeHRV st), rmssd (computeHRV st)) =
  hrv_stats (take (Z.to_nat (nnIndex st)) (nnIntervals st)).
Proof.
  intros Hi Hlen. rewrite computeHRV_prefix by lia.
  apply hrv_on_stats. rewrite length_take.
  unfold ECG_SAMPLE_SIZE, Int.max_signed in *.
  change (2 ^ 31 - 1) with 2147483647. lia.
Qed.



(** ** The HRV formulas *)

(** The examples of section 8: on [700, 900] the RMSSD is 200 and the SDNN
    is the [float] nearest to 100 * sqrt 2, that is, to the square root of
    20000; on [800, 800, 800] both are 0. *)
Example hrv_700_900 :
  hrv_on [700; 900] = (S754_finite false 9268190 (-16), Float.of_Z 200) /\
  (2 * 9268190 - 1) ^ 2 < 20000 * 2 ^ 34 < (2 * 9268190 + 1) ^ 2 /\
  rmssd_spec [700; 900] = 200.
Proof. vm_compute. repeat split; congruence. Qed.

Example hrv_800_800_800 :
  hrv_on [800; 800; 800] = (Float.of_Z 0, Float.of_Z 0) /\
  rmssd_spec [800; 800; 800] = 0.
Proof. vm_compute. split; reflexivity. Qed.

(** C2.  Where an interval is shorter than the one before it, the RMSSD
    that [computeHRV] produces is not the one of the formula: the
    difference of two [unsigned long]s wraps around.  After six beats with
    intervals 900, 700, 700, 700, 700, 700 the first window reports an
    RMSSD of 616, where the formula gives 89. *)
Theorem rmssd_wraps_on_shorter_interval :
  let st := fst (run six_beats (init, device0)) in
  (recorded six_beats (init, device0)).*2 = [900; 700; 700; 700; 700; 700] /\
  take 6 (nnIntervals st) = [900; 700; 700; 700; 700; 700] /\
  nnIndex st = 6 /\
  ULong.sub 700 900 = 4294967096 /\
  rmssd st = Float.of_Z 616 /\
  rmssd_spec [900; 700; 700; 700; 700; 700] = 89 /\
  (forall a b, 0 <= a <= b -> b < 2 ^ 32 -> ULong.sub b a = b - a) /\
  (forall a b, 0 <= b < a -> a < 2 ^ 32 -> ULong.sub b a = 2 ^ 32 - (a - b)).
Proof.
  split; [reflexivity|]. split; [reflexivity|]. split; [reflexivity|].
  split; [reflexivity|]. split; [vm_compute; reflexivity|].
  split; [reflexivity|]. split.
  - intros a b Ha Hb. apply ulong_sub_small. lia.
  - intros a b Hb Ha. unfold ULong.sub, ULong.wrap, ULong.modulus.
    replace (b - a) with (2 ^ 32 - (a - b) + (-1) * 2 ^ 32) by lia.
    rewrite Z.mod_add by lia. apply Z.mod_small. lia.
Qed.

(** ** The classifier *)

Lemma evaluateWindow_stressLevel now st :
  let st1 := computeHRV (estimateBPM (set_intervalStartTime now st)) in
  stressLevel (evaluateWindow now st) =
  if minimalVariation (ecgWaveform st) then "None"
  else classifyStress (bpm st1) (sdnn st1) (rmssd st1).
Proof.
  intros st1. unfold evaluateWindow. fold st1.
  destruct (estimateBPM_writes (set_intervalStartTime now st)) as [b Hb].
  destruct (computeHRV_writes (estimateBPM (set_intervalStartTime now st)))
    as (rm & sd & Hc).
  assert (Hw : ecgWaveform st1 = ecgWaveform st)
    by (subst st1; rewrite Hc, Hb; reflexivity).
  unfold flatlineGuard. cbn [ecgWaveform set_stressLevel].
  rewrite Hw. destruct (minimalVariation (ecgWaveform st)); reflexivity.
Qed.

(** C3.  The classification is a function of (bpm, sdnn, rmssd) alone:
    None unless [bpm > 0], otherwise the level of the first of the three
    rules that matches, in their order, and Low if none matches.  Every
    evaluation window stores the classification of the values it has just
    computed, unless the flatline guard overrides it.  (91, 49, 29) is
    Very High; (91, 50, 29) fails rule 1, then rules 2 and 3, and is Low. *)
Theorem stress_classifier_rules :
  (forall bpm sdnn rmssd,
     classifyStress bpm sdnn rmssd = level_name (classify_spec bpm sdnn rmssd)) /\
  (forall now st,
     let st1 := computeHRV (estimateBPM (set_intervalStartTime now st)) in
     stressLevel (evaluateWindow now st) =
     if minimalVariation (ecgWaveform st) then "None"
     else classifyStress (bpm st1) (sdnn st1) (rmssd st1)) /\
  classifyStress 91 (Float.of_Z 49) (Float.of_Z 29) = "Very High" /\
  classifyStress 91 (Float.of_Z 50) (Float.of_Z 29) = "Low" /\
  classify_spec 91 (Float.of_Z 50) (Float.of_Z 29) = Low /\
  classifyStress 0 (Float.of_Z 49) (Float.of_Z 29) = "None".
Proof.
  split.
  { intros bpm sdnn rmssd. unfold classifyStress, classify_spec, rules.
    destruct (0 <? bpm); [|reflexivity].
    cbn [find fst snd]. unfold Float.geb, Float.gtb, Float.leb, Float.ltb.
    destruct (90 <? bpm), (80 <? bpm), (70 <? bpm);
      destruct (SFltb sdnn (Float.of_Z 50)), (SFltb rmssd (Float.of_Z 30)),
        (SFleb (Float.of_Z 50) sdnn), (SFleb sdnn (Float.of_Z 100)),
        (SFleb (Float.of_Z 30) rmssd), (SFleb rmssd (Float.of_Z 70)),
        (SFltb (Float.of_Z 100) sdnn), (SFltb (Float.of_Z 70) rmssd);
      reflexivity. }
  split.
  { intros now st. apply evaluateWindow_stressLevel. }
  vm_compute. repeat split; reflexivity.
Qed.

(** ** The motors *)

Lemma controlVibeMotors_pins level dev :
  pins (controlVibeMotors level dev) =
  <[motor2 := snd (motors_spec level)]>
    (<[motor1 := fst (motors_spec level)]> (pins dev)) /\
  bluetooth (controlVibeMotors level dev) = bluetooth dev.
Proof.
  unfold controlVibeMotors, motors_spec.
  destruct (String.eqb_spec level "Very High") as [->|H1].
  - rewrite decide_True by reflexivity. split; reflexivity.
  - rewrite decide_False by exact H1.
    destruct (String.eqb_spec level "High") as [->|H2].
    + rewrite decide_True by reflexivity. split; reflexivity.
    + rewrite decide_False by exact H2. split; reflexivity.
Qed.

(** C8.  [controlVibeMotors] drives the two motor pins as a function of
    the stress level alone: both on for "Very High", motor 1 on and motor 2
    off for "High", both off for any other string; it writes no other pin.
    Every iteration of [loop] leaves the pins at the values for the stress
    level it ends with. *)
Theorem actuator_mapping :
  (forall level dev,
     let dev' := controlVibeMotors level dev in
     pins dev' !! motor1 = Some (fst (motors_spec level)) /\
     pins dev' !! motor2 = Some (snd (motors_spec level)) /\
     (forall p, p <> motor1 -> p <> motor2 -> pins dev' !! p = pins dev !! p)) /\
  (forall t s w,
     let st' := fst (loop t s w) in
     let dev' := snd (loop t s w) in
     pins dev' !! motor1 = Some (fst (motors_spec (stressLevel st'))) /\
     pins dev' !! motor2 = Some (snd (motors_spec (stressLevel st')))) /\
  motors_spec "Very High" = (true, true) /\
  motors_spec "High" = (true, false) /\
  motors_spec "Moderate" = (false, false) /\
  motors_spec "Low" = (false, false) /\
  motors_spec "None" = (false, false) /\
  motors_spec EmptyString = (false, false).
Proof.
  assert (Hpins : forall level dev,
     let dev' := controlVibeMotors level dev in
     pins dev' !! motor1 = Some (fst (motors_spec level)) /\
     pins dev' !! motor2 = Some (snd (motors_spec level)) /\
     (forall p, p <> motor1 -> p <> motor2 -> pins dev' !! p = pins dev !! p)).
  { intros level dev dev'. subst dev'.
    destruct (controlVibeMotors_pins level dev) as (-> & _).
    split; [|split].
    - rewrite lookup_insert_ne by (unfold motor1, motor2; lia).
      apply lookup_insert_eq.
    - apply lookup_insert_eq.
    - intros p H1 H2. rewrite !lookup_insert_ne by congruence. reflexivity. }
  split; [exact Hpins|].
  split; [|vm_compute; repeat split; reflexivity].
  intros t s [st dev] st' dev'. subst st' dev'. unfold loop.
  match goal with
  | |- context [controlVibeMotors (stressLevel ?x) dev] => set (st1 := x)
  end.
  destruct (Hpins (stressLevel st1) dev) as (H1 & H2 & _).
  destruct (transmissionInterval <=? _); cbn [fst snd]; auto.
Qed.

Lemma actuator_mapping_witness :
  let dev := controlVibeMotors "High" (controlVibeMotors "Very High" device0) in
  pins dev !! motor1 = Some true /\ pins dev !! motor2 = Some false /\
  pins dev !! 13 = None.
Proof.
  destruct actuator_mapping as (H & _).
  destruct (H "High" (controlVibeMotors "Very High" device0)) as (H1 & H2 & H3).
  split; [exact H1|]. split; [exact H2|].
  rewrite (H3 13) by (vm_compute; congruence).
  destruct (H "Very High" device0) as (_ & _ & H4).
  rewrite (H4 13) by (vm_compute; congruence). reflexivity.
Defined.

(** ** The BPM estimator *)

(** [decayRate] is the [float] 0x3F666666, a little below nine tenths. *)
Example decayRate_value :
  decayRate = S754_finite false 15099494 (-24) /\
  15099494 * 10 < 9 * 2 ^ 24 < 15099495 * 10.
Proof. vm_compute. repeat split; congruence. Qed.

(** The decay in [float] arithmetic agrees with the exact truncation of
    nine tenths over the range checked here, by evaluation. *)
Lemma holds_on_range_spec n i p :
  holds_on_range n i p = true ->
  forall j, i <= j < i + Z.of_nat n -> p j = true.
Proof.
  revert i. induction n as [|n IH]; intros i H j Hj; [lia|].
  cbn [holds_on_range] in H. apply andb_true_iff in H. destruct H as [H1 H2].
  destruct (Z.eq_dec j i) as [->|Hne]; [exact H1|].
  apply (IH (i + 1) H2). lia.
Qed.

Lemma decay_exact b :
  0 <= b <= 100000 ->
  Float.to_int (Float.mul (Float.of_Z b) decayRate) = b * 9 / 10.
Proof.
  intros Hb.
  assert (Hall : holds_on_range (Z.to_nat 100001) 0
            (fun b => Float.to_int (Float.mul (Float.of_Z b) decayRate)
                      =? b * 9 / 10) = true) by (vm_compute; reflexivity).
  apply Z.eqb_eq. apply (holds_on_range_spec _ _ _ Hall).
  rewrite Z2Nat.id; lia.
Qed.

Lemma estimateBPM_beats st :
  0 < pulseCount st -> pulseCount st * 60 <= Int.max_signed ->
  bpm (estimateBPM st) = pulseCount st * 6.
Proof.
  intros Hpos Hmax. unfold estimateBPM.
  destruct (Z.ltb_spec 0 (pulseCount st)); [|lia].
  cbn [bpm set_bpm]. unfold Int.div, Int.mul, interval.
  unfold Int.max_signed in Hmax. change (2 ^ 31 - 1) with 2147483647 in Hmax.
  rewrite (int_wrap_small (pulseCount st * 60))
    by int_range.
  change (Int.wrap (10000 ÷ 1000)) with 10.
  assert (Hq : (pulseCount st * 60) ÷ 10 = pulseCount st * 6).
  { rewrite Z.quot_div_nonneg by lia.
    replace (pulseCount st * 60) with (pulseCount st * 6 * 10) by lia.
    apply Z.div_mul. lia. }
  rewrite Hq. apply int_wrap_small. int_range.
Qed.

Lemma estimateBPM_silent st :
  pulseCount st <= 0 ->
  bpm (estimateBPM st) =
  let b := Float.to_int (Float.mul (Float.of_Z (bpm st)) decayRate) in
  if b <? 1 then 0 else b.
Proof.
  intros H. unfold estimateBPM.
  destruct (Z.ltb_spec 0 (pulseCount st)); [lia|].
  cbn [bpm set_bpm]. cbv zeta.
  destruct (_ <? 1); reflexivity.
Qed.

Lemma evaluateWindow_bpm now st :
  bpm (evaluateWindow now st) =
  if minimalVariation (ecgWaveform st) then 0 else bpm (estimateBPM st).
Proof.
  unfold evaluateWindow.
  assert (Hb : bpm (estimateBPM (set_intervalStartTime now st)) =
               bpm (estimateBPM st)).
  { unfold estimateBPM. cbn [pulseCount bpm set_intervalStartTime set_bpm].
    destruct (0 <? pulseCount st); [reflexivity|].
    cbn [bpm set_bpm]. destruct (_ <? 1); reflexivity. }
  destruct (estimateBPM_writes (set_intervalStartTime now st)) as [b Hw].
  rewrite Hw in *. cbn [bpm set_bpm] in Hb. subst b.
  match goal with |- context [computeHRV ?x] =>
    destruct (computeHRV_writes x) as (rm & sd & ->) end.
  unfold flatlineGuard. cbn [ecgWaveform set_stressLevel set_rmssd set_sdnn
                             set_bpm set_intervalStartTime].
  destruct (minimalVariation (ecgWaveform st)); reflexivity.
Qed.

Lemma evaluateWindow_keeps_waveform now st :
  ecgWaveform (evaluateWindow now st) = ecgWaveform st.
Proof.
  destruct (evaluateWindow_writes now st) as (b & sd & rm & l & ->).
  reflexivity.
Qed.

Lemma evaluateWindow_pulseCount now st : pulseCount (evaluateWindow now st) = 0.
Proof. reflexivity. Qed.

(** C4.  In an evaluation window with at least one beat, [bpm] becomes
    [pulseCount * 60 / (10000 / 1000)], that is [pulseCount * 6]; with no
    beat it becomes the truncation of [bpm * 0.9] computed in [float],
    which is the exact truncation [bpm * 9 / 10] for 0 <= bpm <= 100000,
    and 0 when that is below 1.  The window stores this value unless the
    flatline guard overrides it, and always resets [pulseCount] to 0.
    From [bpm = 100], three windows without a beat give 90, 81 and 72. *)
Theorem bpm_window_update :
  (forall st,
     0 < pulseCount st -> pulseCount st * 60 <= Int.max_signed ->
     bpm (estimateBPM st) = pulseCount st * 60 / (10000 / 1000) /\
     bpm (estimateBPM st) = pulseCount st * 6) /\
  (forall st,
     pulseCount st <= 0 ->
     let b := Float.to_int (Float.mul (Float.of_Z (bpm st)) decayRate) in
     bpm (estimateBPM st) = (if b <? 1 then 0 else b) /\
     (0 <= bpm st <= 100000 -> bpm (estimateBPM st) = bpm st * 9 / 10)) /\
  (forall now st,
     pulseCount (evaluateWindow now st) = 0 /\
     bpm (evaluateWindow now st) =
       if minimalVariation (ecgWaveform st) then 0 else bpm (estimateBPM st)) /\
  (forall st,
     pulseCount st <= 0 -> bpm st = 100 ->
     bpm (estimateBPM st) = 90 /\
     bpm (estimateBPM (estimateBPM st)) = 81 /\
     bpm (estimateBPM (estimateBPM (estimateBPM st))) = 72) /\
  (forall st t1 t2 t3,
     pulseCount st = 0 -> bpm st = 100 ->
     minimalVariation (ecgWaveform st) = false ->
     let st1 := evaluateWindow t1 st in
     let st2 := evaluateWindow t2 st1 in
     let st3 := evaluateWindow t3 st2 in
     bpm st1 = 90 /\ bpm st2 = 81 /\ bpm st3 = 72).
Proof.
  assert (Hsilent : forall st, pulseCount st <= 0 -> 0 <= bpm st <= 100000 ->
                    bpm (estimateBPM st) = bpm st * 9 / 10).
  { intros st Hp Hb. rewrite (estimateBPM_silent st Hp). cbv zeta.
    rewrite (decay_exact _ Hb).
    destruct (Z.ltb_spec (bpm st * 9 / 10) 1) as [Hlt|]; [|reflexivity].
    assert (0 <= bpm st * 9 / 10) by (apply Z.div_pos; lia). lia. }
  split.
  { intros st Hpos Hmax. rewrite (estimateBPM_beats st Hpos Hmax).
    change (10000 / 1000) with 10. split; [|reflexivity].
    replace (pulseCount st * 60) with (pulseCount st * 6 * 10) by lia.
    symmetry. apply Z.div_mul. lia. }
  split.
  { intros st Hp b. split; [apply (estimateBPM_silent st Hp)|].
    apply Hsilent. exact Hp. }
  split.
  { intros now st. split; [reflexivity|apply evaluateWindow_bpm]. }
  split.
  { intros st Hp Hb.
    assert (Hpc : forall s, pulseCount (estimateBPM s) = pulseCount s).
    { intros s. destruct (estimateBPM_writes s) as [b ->]. reflexivity. }
    assert (B1 : bpm (estimateBPM st) = 90)
      by (rewrite Hsilent, Hb by lia; reflexivity).
    assert (B2 : bpm (estimateBPM (estimateBPM st)) = 81)
      by (rewrite Hsilent, B1 by (rewrite ?Hpc, ?B1; lia); reflexivity).
    split; [exact B1|]. split; [exact B2|].
    rewrite Hsilent, B2 by (rewrite ?Hpc, ?B2; lia). reflexivity. }
  intros st t1 t2 t3 Hp Hb Hw st1 st2 st3.
  assert (Hstep : forall t s b,
            pulseCount s = 0 -> bpm s = b -> 0 <= b <= 100000 ->
            minimalVariation (ecgWaveform s) = false ->
            bpm (evaluateWindow t s) = b * 9 / 10 /\
            pulseCount (evaluateWindow t s) = 0 /\
            minimalVariation (ecgWaveform (evaluateWindow t s)) = false).
  { intros t s b Hs1 Hs2 Hs3 Hs4.
    rewrite evaluateWindow_bpm, Hs4, evaluateWindow_keeps_waveform, Hs4.
    rewrite Hsilent by lia. rewrite Hs2. auto. }
  destruct (Hstep t1 st 100 Hp Hb ltac:(lia) Hw) as (B1 & P1 & W1).
  fold st1 in B1, P1, W1. change (100 * 9 / 10) with 90 in B1.
  destruct (Hstep t2 st1 90 P1 B1 ltac:(lia) W1) as (B2 & P2 & W2).
  fold st2 in B2, P2, W2. change (90 * 9 / 10) with 81 in B2.
  destruct (Hstep t3 st2 81 P2 B2 ltac:(lia) W2) as (B3 & _).
  auto.
Qed.

Lemma bpm_window_update_witness :
  bpm (estimateBPM (set_pulseCount 14 init)) = 84 /\
  bpm (estimateBPM (set_bpm 1 init)) = 0 /\
  bpm (estimateBPM (set_bpm 85 init)) = 76 /\
  (let st1 := evaluateWindow 10000 silent_100 in
   let st2 := evaluateWindow 20000 st1 in
   let st3 := evaluateWindow 30000 st2 in
   bpm st1 = 90 /\ bpm st2 = 81 /\ bpm st3 = 72).
Proof.
  destruct bpm_window_update as (H1 & H2 & _ & _ & H4).
  assert (P14 : 0 < pulseCount (set_pulseCount 14 init)) by reflexivity.
  assert (M14 : pulseCount (set_pulseCount 14 init) * 60 <= Int.max_signed)
    by (vm_compute; congruence).
  assert (P0 : forall b, pulseCount (set_bpm b init) <= 0)
    by (intros b; vm_compute; congruence).
  assert (R1 : 0 <= bpm (set_bpm 1 init) <= 100000)
    by (vm_compute; split; congruence).
  assert (R85 : 0 <= bpm (set_bpm 85 init) <= 100000)
    by (vm_compute; split; congruence).
  split; [exact (proj2 (H1 _ P14 M14))|].
  split; [exact (proj2 (H2 _ (P0 1)) R1)|].
  split; [exact (proj2 (H2 _ (P0 85)) R85)|].
  apply (H4 silent_100 10000 20000 30000); reflexivity.
Defined.

(** ** The flatline guard *)

(** The guard looks at the pairs of slots (i - 1, i) for i = 1 .. 127. *)
Lemma minimalVariation_spec w :
  minimalVariation w = true <->
  forall i, 1 <= i < 128 -> abs (Int.sub (aget w i) (aget w (i - 1))) <= 1.
Proof.
  unfold minimalVariation. rewrite forallb_forall. split.
  - intros H i Hi.
    assert (Hin : In i (seqZ 1 (ECG_SAMPLE_SIZE - 1))).
    { apply list_elem_of_In, elem_of_seqZ. unfold ECG_SAMPLE_SIZE. lia. }
    specialize (H i Hin). apply negb_true_iff, Z.ltb_ge in H. exact H.
  - intros H i Hin.
    apply list_elem_of_In, elem_of_seqZ in Hin. unfold ECG_SAMPLE_SIZE in Hin.
    apply negb_true_iff, Z.ltb_ge, H. lia.
Qed.

Lemma abs_small_difference a b :
  Z.abs (a - b) <= 1 -> abs (Int.sub a b) <= 1.
Proof.
  intros H. unfold Int.sub.
  rewrite int_wrap_small
    by int_range.
  unfold abs. destruct (Z.ltb_spec 0 (a - b)); [lia|].
  unfold Int.neg. rewrite int_wrap_small
    by int_range.
  lia.
Qed.

Lemma flat_is_minimalVariation w :
  (forall i, 1 <= i < 128 -> Z.abs (aget w i - aget w (i - 1)) <= 1) ->
  minimalVariation w = true.
Proof.
  intros H. apply minimalVariation_spec. intros i Hi.
  apply abs_small_difference, H, Hi.
Qed.

Lemma evaluateWindow_flat now st :
  minimalVariation (ecgWaveform st) = true ->
  bpm (evaluateWindow now st) = 0 /\ stressLevel (evaluateWindow now st) = "None".
Proof.
  intros H. split; [rewrite evaluateWindow_bpm, H; reflexivity|].
  rewrite evaluateWindow_stressLevel, H. reflexivity.
Qed.

(** C5.  When every two adjacent entries of the waveform buffer differ by
    at most 1, the evaluation window ends with [bpm = 0] and the stress
    level "None", whatever the estimator and the classifier produced; a
    buffer of 128 equal entries is such a buffer. *)
Theorem flatline_override (now : Z) (st : state) :
  let w := ecgWaveform st in
  let classified :=
    let st1 := computeHRV (estimateBPM (set_intervalStartTime now st)) in
    classifyStress (bpm st1) (sdnn st1) (rmssd st1) in
  ((forall i, 1 <= i < 128 -> Z.abs (aget w i - aget w (i - 1)) <= 1) ->
   bpm (evaluateWindow now st) = 0 /\
   stressLevel (evaluateWindow now st) = "None") /\
  ((exists c, w = replicate 128 c) ->
   bpm (evaluateWindow now st) = 0 /\
   stressLevel (evaluateWindow now st) = "None") /\
  stressLevel (evaluateWindow now st) =
    (if minimalVariation w then "None" else classified).
Proof.
  intros w classified.
  assert (H : (forall i, 1 <= i < 128 ->
                 Z.abs (aget w i - aget w (i - 1)) <= 1) ->
              bpm (evaluateWindow now st) = 0 /\
              stressLevel (evaluateWindow now st) = "None").
  { intros Hflat. apply evaluateWindow_flat, flat_is_minimalVariation, Hflat. }
  split; [exact H|]. split; [|apply evaluateWindow_stressLevel].
  intros [c Hc]. apply H. intros i Hi. rewrite Hc.
  assert (Hget : forall j, 0 <= j < 128 -> aget (replicate 128 c) j = c).
  { intros j Hj. unfold aget. destruct (Z.leb_spec 0 j); [|lia].
    apply lookup_total_replicate_2. lia. }
  rewrite !Hget by lia. rewrite Z.sub_diag. cbn. lia.
Qed.

Lemma flatline_override_witness :
  let st := flat_16_beats in
  let st1 := computeHRV (estimateBPM (set_intervalStartTime 10000 st)) in
  bpm st1 = 96 /\
  classifyStress (bpm st1) (sdnn st1) (rmssd st1) = "Very High" /\
  bpm (evaluateWindow 10000 st) = 0 /\
  stressLevel (evaluateWindow 10000 st) = "None".
Proof.
  destruct (flatline_override 10000 flat_16_beats) as (_ & H & _).
  split; [reflexivity|]. split; [reflexivity|].
  apply H. exists 7. reflexivity.
Defined.

(** The window's computation does not read the write index of the
    waveform buffer. *)
Lemma evaluateWindow_ecgIndex now st k :
  evaluateWindow now (set_ecgIndex k st) = set_ecgIndex k (evaluateWindow now st).
Proof.
  assert (E : forall s, estimateBPM (set_ecgIndex k s) = set_ecgIndex k (estimateBPM s)).
  { intros s. unfold estimateBPM. cbn [pulseCount bpm set_ecgIndex].
    destruct (0 <? pulseCount s); [reflexivity|].
    cbn [bpm set_bpm]. destruct (_ <? 1); reflexivity. }
  assert (C : forall s, computeHRV (set_ecgIndex k s) = set_ecgIndex k (computeHRV s)).
  { intros s. unfold computeHRV. cbn [nnIndex nnIntervals set_ecgIndex].
    destruct (nnIndex s <? 2); reflexivity. }
  unfold evaluateWindow.
  change (set_intervalStartTime now (set_ecgIndex k st))
    with (set_ecgIndex k (set_intervalStartTime now st)).
  rewrite E, C.
  generalize (computeHRV (estimateBPM (set_intervalStartTime now st))).
  intros s. destruct s. unfold flatlineGuard. cbn.
  destruct (minimalVariation _); reflexivity.
Qed.

(** C10.  The flatline test compares the slots (i - 1, i) for
    i = 1 .. 127 in storage order and nothing else: its verdict does not
    depend on the write index, and slot 127 is never compared with slot 0.
    A buffer whose adjacent slots differ by at most 1 is judged flat, and
    the window ends with [bpm = 0] and "None", even when slots 127 and 0
    differ by more than 1. *)
Theorem flatline_storage_order :
  (forall w,
     minimalVariation w = true <->
     forall i, 1 <= i < 128 -> abs (Int.sub (aget w i) (aget w (i - 1))) <= 1) /\
  (forall now st k,
     bpm (evaluateWindow now (set_ecgIndex k st)) = bpm (evaluateWindow now st) /\
     stressLevel (evaluateWindow now (set_ecgIndex k st)) =
       stressLevel (evaluateWindow now st)) /\
  (forall now st,
     let w := ecgWaveform st in
     1 < Z.abs (aget w 127 - aget w 0) ->
     (forall i, 1 <= i < 128 -> Z.abs (aget w i - aget w (i - 1)) <= 1) ->
     minimalVariation w = true /\
     bpm (evaluateWindow now st) = 0 /\
     stressLevel (evaluateWindow now st) = "None").
Proof.
  split; [exact minimalVariation_spec|]. split.
  - intros now st k. rewrite evaluateWindow_ecgIndex.
    generalize (evaluateWindow now st). intros s. split; reflexivity.
  - intros now st w _ Hflat.
    pose proof (flat_is_minimalVariation w Hflat) as Hm.
    split; [exact Hm|]. apply evaluateWindow_flat, Hm.
Qed.

Lemma flatline_storage_order_witness :
  let st := set_pulseCount 16 (set_ecgWaveform ramp init) in
  aget ramp 0 = 0 /\ aget ramp 127 = 20 /\
  bpm (estimateBPM st) = 96 /\
  minimalVariation ramp = true /\
  bpm (evaluateWindow 10000 st) = 0 /\
  stressLevel (evaluateWindow 10000 st) = "None".
Proof.
  destruct flatline_storage_order as (_ & _ & H).
  split; [reflexivity|]. split; [reflexivity|]. split; [reflexivity|].
  apply (H 10000 (set_pulseCount 16 (set_ecgWaveform ramp init))).
  - vm_compute. reflexivity.
  - intros i Hi. cbn [ecgWaveform set_pulseCount set_ecgWaveform].
    assert (Hall : forallb
              (fun i => Z.abs (aget ramp i - aget ramp (i - 1)) <=? 1)
              (seqZ 1 127) = true) by (vm_compute; reflexivity).
    rewrite forallb_forall in Hall. apply Z.leb_le, Hall.
    apply list_elem_of_In, elem_of_seqZ. lia.
Defined.

(** The same on the device: 128 samples that rise slowly and then stay
    high fill the buffer with [ramp]; beats are counted on the plateau,
    and the window that ends with the last sample reports no pulse. *)
Example ramp_run :
  let st := fst (run ramp_inputs (init, device0)) in
  ecgWaveform st = ramp /\ ecgIndex st = 0 /\
  length (recorded ramp_inputs (init, device0)) = 15%nat /\
  bpm st = 0 /\ stressLevel st = "None".
Proof. vm_compute. repeat split; reflexivity. Qed.

(** ** The evaluation-window gate *)

(** What the sampling and the detector leave alone. *)
Lemma pre_window_frame now s st :
  let pre := detectPulse now s (sampleWaveform s st) in
  intervalStartTime pre = intervalStartTime st /\
  bpm pre = bpm st /\ sdnn pre = sdnn st /\ rmssd pre = rmssd st /\
  stressLevel pre = stressLevel st /\
  lastTransmissionTime pre = lastTransmissionTime st.
Proof.
  cbv zeta. unfold detectPulse.
  destruct (beatAccepted now s (sampleWaveform s st)); cbn; auto 10.
Qed.

(** C9.  In an iteration of [loop] where fewer than 10 000 ms (modulo
    2^32) have passed since [intervalStartTime], the window branch is not
    taken: [bpm], [sdnn], [rmssd], [stressLevel] and [intervalStartTime]
    keep their values, and the state is the one left by the sampling and
    the pulse detector, up to [lastTransmissionTime]; when at least
    10 000 ms have passed it is the one left by [evaluateWindow]. *)
Theorem window_gate_frame (now s : Z) (st : state) (dev : device) :
  let pre := detectPulse now s (sampleWaveform s st) in
  let st' := fst (loop now s (st, dev)) in
  (ULong.sub now (intervalStartTime st) < 10000 ->
   bpm st' = bpm st /\ sdnn st' = sdnn st /\ rmssd st' = rmssd st /\
   stressLevel st' = stressLevel st /\
   intervalStartTime st' = intervalStartTime st /\
   (st' = pre \/ st' = set_lastTransmissionTime now pre)) /\
  (10000 <= ULong.sub now (intervalStartTime st) ->
   st' = evaluateWindow now pre \/
   st' = set_lastTransmissionTime now (evaluateWindow now pre)).
Proof.
  intros pre st'.
  destruct (pre_window_frame now s st) as (F0 & F1 & F2 & F3 & F4 & F5).
  fold pre in F0, F1, F2, F3, F4, F5.
  subst st'. unfold loop. cbn [fst]. fold pre.
  unfold windowElapsed, interval. rewrite F0.
  split; intros H.
  - destruct (Z.leb_spec 10000 (ULong.sub now (intervalStartTime st))); [lia|].
    destruct (transmissionInterval <=? _); cbn [fst];
      rewrite <- F0, <- F1, <- F2, <- F3, <- F4; auto 10.
  - destruct (Z.leb_spec 10000 (ULong.sub now (intervalStartTime st))); [|lia].
    destruct (transmissionInterval <=? _); cbn [fst]; auto.
Qed.

Lemma window_gate_frame_witness :
  let st := set_stressLevel "High" (set_bpm 84 (set_intervalStartTime 10000 init)) in
  let st' := fst (loop 19999 600 (st, device0)) in
  bpm st' = 84 /\ stressLevel st' = "High" /\ pulseCount st' = 1 /\
  bpm (fst (loop 20000 600 (st, device0))) = 6.
Proof.
  pose (st := set_stressLevel "High"
                (set_bpm 84 (set_intervalStartTime 10000 init))).
  destruct (window_gate_frame 19999 600 st device0) as (H & _).
  assert (Hlt : ULong.sub 19999 (intervalStartTime st) < 10000) by reflexivity.
  destruct (H Hlt) as (H1 & _ & _ & H4 & _).
  cbv zeta. fold st. split; [exact H1|]. split; [exact H4|].
  split; reflexivity.
Defined.

(** * Further properties of the sketch *)

(** ** One iteration, written out *)

Lemma loop_unfold t s st dev :
  let pre := detectPulse t s (sampleWaveform s st) in
  let post := if windowElapsed t pre then evaluateWindow t pre else pre in
  let dev1 := controlVibeMotors (stressLevel post) dev in
  lastTransmissionTime post = lastTransmissionTime st /\
  loop t s (st, dev) =
  if transmissionInterval <=? ULong.sub t (lastTransmissionTime st)
  then (set_lastTransmissionTime t post, sendBluetoothData post dev1)
  else (post, dev1).
Proof.
  intros pre post dev1.
  assert (Hl : lastTransmissionTime post = lastTransmissionTime st).
  { destruct (pre_window_frame t s st) as (_ & _ & _ & _ & _ & F).
    fold pre in F. subst post. destruct (windowElapsed t pre); [|exact F].
    destruct (evaluateWindow_writes t pre) as (b & sd & rm & l & ->).
    exact F. }
  split; [exact Hl|].
  unfold loop. fold pre. fold post. rewrite Hl. reflexivity.
Qed.

Lemma window_bpm_input now st :
  bpm (computeHRV (estimateBPM (set_intervalStartTime now st))) =
  bpm (estimateBPM st).
Proof.
  destruct (computeHRV_writes (estimateBPM (set_intervalStartTime now st)))
    as (rm & sd & ->).
  cbn [bpm set_rmssd set_sdnn]. unfold estimateBPM.
  cbn [pulseCount bpm set_intervalStartTime set_bpm].
  destruct (0 <? pulseCount st); [reflexivity|].
  cbn [bpm set_bpm]. destruct (_ <? 1); reflexivity.
Qed.

(** ** The stress level and the heart rate *)

Lemma classifyStress_agrees b sd rm :
  let l := classifyStress b sd rm in
  (l = "None" /\ b <= 0) \/ (l = "Low" /\ 0 < b) \/
  (l = "Moderate" /\ 70 < b) \/ (l = "High" /\ 80 < b) \/
  (l = "Very High" /\ 90 < b).
Proof.
  cbv zeta. unfold classifyStress.
  destruct (Z.ltb_spec 0 b); [|left; split; [reflexivity|lia]].
  destruct (Z.ltb_spec 90 b); destruct (Z.ltb_spec 80 b);
    destruct (Z.ltb_spec 70 b); cbn [andb];
    repeat match goal with
           | |- context [if ?c then _ else _] => destruct c
           end;
    auto 10 with lia.
Qed.

Lemma evaluateWindow_agrees now st : level_agrees (evaluateWindow now st).
Proof.
  unfold level_agrees.
  rewrite evaluateWindow_bpm, evaluateWindow_stressLevel.
  destruct (minimalVariation (ecgWaveform st)).
  - right; left. split; [reflexivity|lia].
  - rewrite <- (window_bpm_input now st).
    match goal with |- context [classifyStress ?b ?sd ?rm] =>
      pose proof (classifyStress_agrees b sd rm) as H end.
    cbv zeta in H. right. exact H.
Qed.

Lemma loop_agrees t s w : level_agrees (fst w) -> level_agrees (fst (loop t s w)).
Proof.
  destruct w as [st dev]. cbn [fst]. intros H.
  destruct (loop_unfold t s st dev) as (_ & ->).
  set (pre := detectPulse t s (sampleWaveform s st)).
  assert (Hpost : level_agrees
            (if windowElapsed t pre then evaluateWindow t pre else pre)).
  { destruct (windowElapsed t pre); [apply evaluateWindow_agrees|].
    destruct (pre_window_frame t s st) as (_ & F1 & _ & _ & F4 & _).
    fold pre in F1, F4. unfold level_agrees. rewrite F1, F4. exact H. }
  destruct (transmissionInterval <=? _); exact Hpost.
Qed.

Lemma run_agrees inputs w : level_agrees (fst w) -> level_agrees (fst (run inputs w)).
Proof.
  revert w. induction inputs as [|[t s] rest IH]; intros w H; [exact H|].
  unfold run in *. cbn [fold_left]. apply IH, loop_agrees, H.
Qed.

(** X1.  Along every run from power-up the stress level is the empty string
    (before the first window) or one of the five names, and it agrees with
    the heart rate shown beside it: "None" only with [bpm <= 0], "Low" only
    with [bpm > 0], "Moderate" only with [bpm > 70], "High" only with
    [bpm > 80] and "Very High" only with [bpm > 90]. *)
Theorem level_agrees_with_bpm (inputs : list (Z * Z)) (dev : device) :
  level_agrees (fst (run inputs (init, dev))).
Proof. apply run_agrees. left. split; reflexivity. Qed.

(** ** The motors along a run *)

Lemma run_pins inputs st dev :
  inputs <> [] ->
  let w := run inputs (st, dev) in
  pins (snd w) !! motor1 = Some (fst (motors_spec (stressLevel (fst w)))) /\
  pins (snd w) !! motor2 = Some (snd (motors_spec (stressLevel (fst w)))).
Proof.
  intros Hne. destruct (exists_last Hne) as [front [[t s] Heq]]. subst inputs.
  unfold run. rewrite fold_left_app. cbn [fold_left].
  destruct (fold_left _ front (st, dev)) as [st1 dev1].
  destruct (loop_unfold t s st1 dev1) as (_ & ->).
  match goal with |- context [controlVibeMotors (stressLevel ?p) dev1] =>
    set (post := p) end.
  destruct (controlVibeMotors_pins (stressLevel post) dev1) as (Hp & _).
  assert (H1 : pins (controlVibeMotors (stressLevel post) dev1) !! motor1 =
               Some (fst (motors_spec (stressLevel post)))).
  { rewrite Hp, lookup_insert_ne by (unfold motor1, motor2; lia).
    apply lookup_insert_eq. }
  assert (H2 : pins (controlVibeMotors (stressLevel post) dev1) !! motor2 =
               Some (snd (motors_spec (stressLevel post)))).
  { rewrite Hp. apply lookup_insert_eq. }
  destruct (transmissionInterval <=? _); cbn [fst snd]; auto.
Qed.

Lemma motors_from_level st (p1 p2 : option bool) :
  level_agrees st ->
  p1 = Some (fst (motors_spec (stressLevel st))) ->
  p2 = Some (snd (motors_spec (stressLevel st))) ->
  (p1 = Some true -> 80 < bpm st) /\
  (p2 = Some true -> 90 < bpm st /\ p1 = Some true).
Proof.
  intros Ha -> ->.
  destruct Ha as [[-> Hb]|[[-> Hb]|[[-> Hb]|[[-> Hb]|[[-> Hb]|[-> Hb]]]]]].
  - change (motors_spec EmptyString) with (false, false).
    split; intros H; discriminate H.
  - change (motors_spec "None") with (false, false).
    split; intros H; discriminate H.
  - change (motors_spec "Low") with (false, false).
    split; intros H; discriminate H.
  - change (motors_spec "Moderate") with (false, false).
    split; intros H; discriminate H.
  - change (motors_spec "High") with (true, false).
    split; intros H; [lia|discriminate H].
  - change (motors_spec "Very High") with (true, true).
    split; intros H; [lia|split; [lia|reflexivity]].
Qed.

(** X2.  After any run from power-up motor 2 is never on with motor 1 off,
    motor 1 is on only while [bpm > 80] and motor 2 only while
    [bpm > 90]. *)
Theorem motors_need_high_bpm (inputs : list (Z * Z)) :
  let w := run inputs (init, device0) in
  (pins (snd w) !! motor1 = Some true -> 80 < bpm (fst w)) /\
  (pins (snd w) !! motor2 = Some true ->
   90 < bpm (fst w) /\ pins (snd w) !! motor1 = Some true).
Proof.
  intros w. destruct inputs as [|i rest].
  { subst w. cbn. split; intros H; discriminate H. }
  assert (Hne : i :: rest <> []) by discriminate.
  destruct (run_pins (i :: rest) init device0 Hne) as (H1 & H2).
  pose proof (run_agrees (i :: rest) (init, device0)
                (or_introl (conj eq_refl eq_refl))) as Ha.
  fold w in H1, H2, Ha. clearbody w.
  exact (motors_from_level (fst w) _ _ Ha H1 H2).
Qed.

Lemma motors_need_high_bpm_witness :
  let w := run brisk_run (init, device0) in
  stressLevel (fst w) = "Very High" /\
  pins (snd w) !! motor2 = Some true /\
  90 < bpm (fst w) /\ pins (snd w) !! motor1 = Some true.
Proof.
  destruct (motors_need_high_bpm brisk_run) as (_ & H).
  assert (Hp : pins (snd (run brisk_run (init, device0))) !! motor2 = Some true)
    by (vm_compute; reflexivity).
  split; [vm_compute; reflexivity|]. split; [exact Hp|exact (H Hp)].
Defined.

(** ** The heart rate under a monotone clock *)

Lemma detectPulse_paced t0 t s st :
  paced t0 st -> t0 <= t < 2 ^ 32 ->
  let pre := detectPulse t s (sampleWaveform s st) in
  0 <= lastBeatTime pre <= t /\
  0 <= pulseCount pre <= 18 /\
  (0 < pulseCount pre ->
   intervalStartTime st + 601 * (pulseCount pre - 1) <= lastBeatTime pre) /\
  (t - intervalStartTime st < 10000 -> pulseCount pre <= 17).
Proof.
  intros [Hb Hs Hw Hc Hsp _] Ht pre. subst pre.
  destruct (sampleWaveform_detector s st) as (S1 & _ & _ & S4).
  destruct (beatAccepted t s (sampleWaveform s st)) eqn:Hacc.
  - rewrite (detectPulse_accepted _ _ _ Hacc).
    cbn [lastBeatTime pulseCount]. rewrite S4.
    apply beatAccepted_spec in Hacc. destruct Hacc as [_ Hacc].
    rewrite S1, ulong_sub_small in Hacc by lia.
    unfold Int.add. rewrite int_wrap_small by int_range.
    repeat split; lia.
  - rewrite (detectPulse_rejected _ _ _ Hacc), S1, S4.
    repeat split; lia.
Qed.

Lemma loop_paced t0 t s st dev :
  paced t0 st -> t0 <= t < 2 ^ 32 -> paced t (fst (loop t s (st, dev))).
Proof.
  intros Hp Ht.
  destruct (detectPulse_paced t0 t s st Hp Ht) as (D1 & D2 & D3 & D4).
  destruct (pre_window_frame t s st) as (F0 & F1 & _).
  destruct (loop_unfold t s st dev) as (_ & ->).
  set (pre := detectPulse t s (sampleWaveform s st)) in *.
  destruct Hp as [Hb Hs Hw Hc Hsp Hbpm].
  assert (Hpost : paced t (if windowElapsed t pre then evaluateWindow t pre
                           else pre)).
  { unfold windowElapsed, interval. rewrite F0, ulong_sub_small by lia.
    destruct (Z.leb_spec 10000 (t - intervalStartTime st)) as [Hel|Hel].
    - assert (Hest : 0 <= bpm (estimateBPM pre) <= 108).
      { destruct (Z.lt_ge_cases 0 (pulseCount pre)) as [Hpos|Hzero].
        - rewrite estimateBPM_beats; [lia|exact Hpos|].
          unfold Int.max_signed. change (2 ^ 31 - 1) with 2147483647. lia.
        - rewrite estimateBPM_silent by exact Hzero. cbv zeta.
          rewrite F1, decay_exact by lia.
          assert (0 <= bpm st * 9 / 10 <= bpm st).
          { split; [apply Z.div_pos; lia|].
            apply Z.div_le_upper_bound; lia. }
          destruct (_ <? 1); lia. }
      pose proof (evaluateWindow_bpm t pre) as Hbpm'.
      destruct (evaluateWindow_writes t pre) as (b & sd & rm & l & Heq).
      rewrite Heq in *. cbn [bpm] in Hbpm'.
      constructor; cbn; try lia.
      rewrite Hbpm'. destruct (minimalVariation _); lia.
    - constructor; rewrite ?F0, ?F1; lia. }
  destruct (transmissionInterval <=? _); cbn [fst]; [|exact Hpost].
  destruct Hpost. constructor; assumption.
Qed.

Lemma run_paced inputs t0 st dev :
  paced t0 st -> monotone_from t0 inputs ->
  paced (last_time t0 inputs) (fst (run inputs (st, dev))).
Proof.
  revert t0 st dev. induction inputs as [|[t s] rest IH]; intros t0 st dev Hp Hm.
  - exact Hp.
  - destruct Hm as [Ht Hm]. unfold run, last_time in *. cbn [fold_left fst].
    pose proof (loop_paced t0 t s st dev Hp Ht) as Hp'.
    destruct (loop t s (st, dev)) as [st1 dev1]. apply IH; assumption.
Qed.

Lemma init_paced : paced 0 init.
Proof. constructor; cbn; lia. Qed.

(** X3.  When the readings of [millis()] do not decrease and do not wrap,
    every run from power-up keeps the heart rate between 0 and 108 and the
    beat counter between 0 and 17 at the end of each iteration: beats are
    more than 600 ms apart, so at most 17 fall within a window and one more
    in the iteration that ends it. *)
Theorem bpm_range (inputs : list (Z * Z)) (dev : device) :
  monotone_from 0 inputs ->
  let st := fst (run inputs (init, dev)) in
  0 <= bpm st <= 108 /\ 0 <= pulseCount st <= 17.
Proof.
  intros Hm st.
  destruct (run_paced inputs 0 init dev init_paced Hm) as [_ _ _ Hc _ Hb].
  fold st in Hc, Hb. split; assumption.
Qed.

Lemma bpm_range_witness :
  bpm (fst (run fastest_run (init, device0))) = 108 /\
  0 <= bpm (fst (run fastest_run (init, device0))) <= 108.
Proof.
  assert (Hm : monotone_from 0 fastest_run).
  { vm_compute. repeat split; congruence. }
  split; [vm_compute; reflexivity|].
  apply (bpm_range fastest_run device0 Hm).
Defined.

(** ** The range of the HRV statistics *)

Lemma binary_round_aux_not_negative prec emax m e l :
  not_negative (binary_round_aux prec emax false m e l).
Proof.
  unfold binary_round_aux.
  destruct (shr_fexp prec emax m e l) as [mrs' e'].
  destruct (shr_fexp prec emax _ e' loc_Exact) as [mrs'' e''].
  destruct (shr_m mrs''); cbn; [exact I| |exact I].
  destruct (Z.leb _ _); exact I.
Qed.

Lemma sqrt_not_negative x : not_negative (Float.sqrt x).
Proof.
  unfold Float.sqrt, SFsqrt. destruct x as [s|[|]| |[|] m e]; cbn; try exact I.
  destruct (SFsqrt_core_binary Float.prec Float.emax (Z.pos m) e)
    as [[mz ez] lz].
  apply binary_round_aux_not_negative.
Qed.

Lemma to_int_convertible x :
  convertible_to_int x -> Float.to_int x = FP.trunc x.
Proof.
  unfold Float.to_int, convertible_to_int, Int.in_range.
  destruct x as [s|[|]| |s m e]; cbn [FP.is_pos_inf FP.is_neg_inf];
    try contradiction; intros H; [reflexivity|lia].
Qed.

Lemma trunc_not_negative x : not_negative x -> 0 <= FP.trunc x.
Proof.
  destruct x as [s|[|]| |[|] m e]; cbn [not_negative FP.trunc];
    intros H; try contradiction; try lia.
  destruct e; [apply Z.shiftl_nonneg|apply Z.shiftl_nonneg
              |apply Z.shiftr_nonneg]; lia.
Qed.

Lemma computeHRV_sdnn st :
  sdnn (computeHRV st) = Float.of_Z 0 \/
  exists y, sdnn (computeHRV st) = Float.sqrt y.
Proof.
  unfold computeHRV. destruct (nnIndex st <? 2); [left; reflexivity|].
  right. eexists. reflexivity.
Qed.

(** X4.  The SDNN that [computeHRV] stores is never below zero.  Its RMSSD
    is 0 below two intervals; otherwise, where the root of the mean squared
    successive difference of the slots [0, nnIndex) lies in the range of
    [int] (so that [int(sqrt(..))] is defined), the RMSSD is the integer
    part of that root modulo 1000, a whole number between 0 and 999.
    The condition is needed: on the history 900, 700 the root is
    4294967040, outside the range of [int]. *)
Theorem hrv_range :
  (forall st,
     not_negative (sdnn (computeHRV st)) /\
     Float.ltb (sdnn (computeHRV st)) (Float.of_Z 0) = false) /\
  (forall st, nnIndex st < 2 -> rmssd (computeHRV st) = Float.of_Z 0) /\
  (forall st,
     2 <= nnIndex st <= 128 ->
     (Z.to_nat (nnIndex st) <= length (nnIntervals st))%nat ->
     let root := rmssd_root (take (Z.to_nat (nnIndex st)) (nnIntervals st)) in
     convertible_to_int root ->
     rmssd (computeHRV st) = Float.of_Z (Z.rem (FP.trunc root) 1000) /\
     0 <= Z.rem (FP.trunc root) 1000 <= 999) /\
  (FP.trunc (rmssd_root [900; 700]) = 4294967040 /\
   ~ convertible_to_int (rmssd_root [900; 700])).
Proof.
  split.
  { intros st.
    assert (Hy : not_negative (sdnn (computeHRV st))).
    { destruct (computeHRV_sdnn st) as [->|(y & ->)];
        [exact I|apply sqrt_not_negative]. }
    split; [exact Hy|].
    destruct (sdnn (computeHRV st)) as [s|[|]| |[|] m e]; cbn in Hy;
      try contradiction; try reflexivity; destruct s; reflexivity. }
  split.
  { intros st H. unfold computeHRV.
    destruct (Z.ltb_spec (nnIndex st) 2); [reflexivity|lia]. }
  split.
  { intros st Hi Hlen root Hc.
    pose proof (computeHRV_stats st ltac:(unfold ECG_SAMPLE_SIZE; lia) Hlen)
      as Hs.
    unfold hrv_stats in Hs.
    rewrite length_take, Nat.min_l in Hs by exact Hlen.
    rewrite Z2Nat.id in Hs by lia.
    destruct (Z.ltb_spec (nnIndex st) 2) as [?|_]; [lia|].
    injection Hs as _ Hr. fold root in Hr.
    rewrite (to_int_convertible _ Hc) in Hr.
    split; [exact Hr|].
    assert (H0 : 0 <= FP.trunc root).
    { apply trunc_not_negative. apply sqrt_not_negative. }
    pose proof (Z.rem_bound_pos (FP.trunc root) 1000 H0). lia. }
  assert (Ht : FP.trunc (rmssd_root [900; 700]) = 4294967040)
    by (vm_compute; reflexivity).
  split; [exact Ht|].
  assert (Hf : exists s m e, rmssd_root [900; 700] = S754_finite s m e).
  { vm_compute. eexists. eexists. eexists. reflexivity. }
  destruct Hf as (s & m & e & Hf). unfold convertible_to_int.
  rewrite Hf, <- Hf, Ht. unfold Int.in_range, Int.max_signed.
  change (2 ^ 31 - 1) with 2147483647. lia.
Qed.

Lemma hrv_range_witness :
  let st := fst (run (varied_beats 131) (init, device0)) in
  nnIndex st = 3 /\
  take 3 (nnIntervals st) = [700; 750; 800] /\
  FP.trunc (rmssd_root [700; 750; 800]) = 50 /\
  rmssd (computeHRV st) = Float.of_Z 50.
Proof.
  destruct hrv_range as (_ & _ & H & _).
  set (st := fst (run (varied_beats 131) (init, device0))).
  assert (Hi : nnIndex st = 3) by (vm_compute; reflexivity).
  assert (Hx : take 3 (nnIntervals st) = [700; 750; 800])
    by (vm_compute; reflexivity).
  assert (Ht : FP.trunc (rmssd_root [700; 750; 800]) = 50)
    by (vm_compute; reflexivity).
  split; [exact Hi|]. split; [exact Hx|]. split; [exact Ht|].
  specialize (H st). rewrite Hi in H. change (Z.to_nat 3) with 3%nat in H.
  rewrite Hx in H.
  destruct H as [H _].
  - lia.
  - vm_compute. lia.
  - vm_compute. split; congruence.
  - rewrite H, Ht. reflexivity.
Defined.

(** ** Telemetry *)

Lemma loop_telemetry t s st dev :
  let w := loop t s (st, dev) in
  (transmissionInterval <= ULong.sub t (lastTransmissionTime st) ->
   lastTransmissionTime (fst w) = t /\
   bluetooth (snd w) = bluetooth dev ++ [telemetryLine (fst w)]) /\
  (ULong.sub t (lastTransmissionTime st) < transmissionInterval ->
   lastTransmissionTime (fst w) = lastTransmissionTime st /\
   bluetooth (snd w) = bluetooth dev).
Proof.
  intros w. subst w. destruct (loop_unfold t s st dev) as (Hl & ->).
  match goal with |- context [controlVibeMotors (stressLevel ?p) dev] =>
    set (post := p) in * end.
  destruct (controlVibeMotors_pins (stressLevel post) dev) as (_ & Hbt).
  destruct (Z.leb_spec transmissionInterval
              (ULong.sub t (lastTransmissionTime st))) as [H|H];
    (split; intros H'; [|]); try lia; cbn [fst snd].
  - split; [reflexivity|]. unfold sendBluetoothData. cbn [bluetooth].
    rewrite Hbt. reflexivity.
  - split; [exact Hl|exact Hbt].
Qed.

(** What holds of the telemetry at the end of an iteration at time [t]
    under a monotone clock. *)
Lemma loop_telemetry_rate t0 t s st dev n :
  t0 <= t < 2 ^ 32 ->
  0 <= lastTransmissionTime st <= t0 ->
  5000 * Z.of_nat (length (bluetooth dev)) <= lastTransmissionTime st + n ->
  let w := loop t s (st, dev) in
  0 <= lastTransmissionTime (fst w) <= t /\
  t - lastTransmissionTime (fst w) < 5000 /\
  5000 * Z.of_nat (length (bluetooth (snd w))) <= lastTransmissionTime (fst w) + n.
Proof.
  intros Ht Hl Hn w.
  destruct (loop_telemetry t s st dev) as (Hyes & Hno). fold w in Hyes, Hno.
  unfold transmissionInterval in *.
  rewrite ulong_sub_small in Hyes, Hno by lia.
  destruct (Z.le_gt_cases 5000 (t - lastTransmissionTime st)) as [H|H].
  - destruct (Hyes H) as (-> & ->). rewrite length_app. cbn [length]. lia.
  - destruct (Hno H) as (-> & ->). lia.
Qed.

(** X5.  A record is sent exactly in the iterations in which at least 5000
    ms (modulo 2^32) have passed since the last one; it is the line
    "<bpm>,<stressLevel>" of the state the iteration ends with, appended to
    what was sent before, and [lastTransmissionTime] becomes the current
    time; otherwise nothing is sent.  Under a monotone clock, a run from
    power-up has sent at most one record per 5000 ms elapsed, and at the
    end of every iteration the last record is less than 5000 ms old. *)
Theorem telemetry_gate :
  (forall t s st dev,
     let w := loop t s (st, dev) in
     (5000 <= ULong.sub t (lastTransmissionTime st) ->
      lastTransmissionTime (fst w) = t /\
      bluetooth (snd w) = bluetooth dev ++ [telemetryLine (fst w)]) /\
     (ULong.sub t (lastTransmissionTime st) < 5000 ->
      lastTransmissionTime (fst w) = lastTransmissionTime st /\
      bluetooth (snd w) = bluetooth dev)) /\
  (forall inputs,
     monotone_from 0 inputs ->
     let w := run inputs (init, device0) in
     let t := last_time 0 inputs in
     5000 * Z.of_nat (length (bluetooth (snd w)))
       <= lastTransmissionTime (fst w) <= t /\
     t - lastTransmissionTime (fst w) < 5000).
Proof.
  split; [exact loop_telemetry|].
  intros inputs Hm.
  assert (H : forall t0 w,
    monotone_from t0 inputs ->
    0 <= lastTransmissionTime (fst w) <= t0 ->
    t0 - lastTransmissionTime (fst w) < 5000 ->
    5000 * Z.of_nat (length (bluetooth (snd w)))
      <= lastTransmissionTime (fst w) + 0 ->
    0 <= lastTransmissionTime (fst (run inputs w)) <= last_time t0 inputs /\
    last_time t0 inputs - lastTransmissionTime (fst (run inputs w)) < 5000 /\
    5000 * Z.of_nat (length (bluetooth (snd (run inputs w))))
      <= lastTransmissionTime (fst (run inputs w)) + 0).
  { clear Hm. induction inputs as [|[t s] rest IH]; intros t0 [st dev] Hm Hl Hs Hn.
    - cbn in *. lia.
    - destruct Hm as [Ht Hm]. unfold run, last_time in *. cbn [fold_left fst].
      cbn [fst snd] in Hl, Hs, Hn.
      destruct (loop_telemetry_rate t0 t s st dev 0 Ht Hl Hn) as (L1 & L2 & L3).
      apply IH; assumption. }
  cbv zeta. destruct (H 0 (init, device0) Hm) as (H1 & H2 & H3); cbn; try lia.
Qed.

Lemma telemetry_gate_witness :
  let w := run six_beats (init, device0) in
  bluetooth (snd w) = ["36,Low"] /\
  lastTransmissionTime (fst w) = 10000 /\
  5000 * Z.of_nat (length (bluetooth (snd w))) <= lastTransmissionTime (fst w)
    <= last_time 0 six_beats.
Proof.
  destruct telemetry_gate as (_ & H).
  assert (Hm : monotone_from 0 six_beats)
    by (vm_compute; repeat split; congruence).
  split; [vm_compute; reflexivity|]. split; [vm_compute; reflexivity|].
  exact (proj1 (H six_beats Hm)).
Defined.

(** The decimal rendering of a number has no comma. *)
Lemma pretty_N_go_comma_free x s :
  comma_free s -> comma_free (pretty_N_go x s).
Proof.
  revert s. induction (N.lt_wf_0 x) as [x _ IH]; intros s Hs.
  destruct (N.eq_dec x 0%N) as [->|Hx].
  - rewrite pretty_N_go_0. exact Hs.
  - rewrite pretty_N_go_step by lia. apply IH.
    + apply N.div_lt; lia.
    + split; [|exact Hs].
      unfold pretty_N_char. repeat case_match; discriminate.
Qed.

Lemma pretty_Z_comma_free (z : Z) : comma_free (pretty z).
Proof.
  assert (HN : forall n : N, comma_free (pretty n)).
  { intros n. unfold pretty, pretty_N. case_decide.
    - split; [discriminate|exact I].
    - apply pretty_N_go_comma_free. exact I. }
  destruct z as [|p|p]; unfold pretty, pretty_Z.
  - split; [discriminate|exact I].
  - apply HN.
  - split; [discriminate|apply HN].
Qed.

Lemma split_at_first_comma s1 s2 l1 l2 :
  comma_free s1 -> comma_free s2 ->
  s1 +:+ "," +:+ l1 = s2 +:+ "," +:+ l2 -> s1 = s2 /\ l1 = l2.
Proof.
  revert s2. induction s1 as [|c1 s1 IH]; intros [|c2 s2] H1 H2 Heq;
    simpl in Heq.
  - injection Heq as Heq. auto.
  - injection Heq as Hc _. destruct H2 as [H2 _]. congruence.
  - injection Heq as Hc _. destruct H1 as [H1 _]. congruence.
  - injection Heq as Hc Heq. destruct H1 as [_ H1], H2 as [_ H2].
    destruct (IH s2 H1 H2 Heq) as [Hs Hl]. subst. auto.
Qed.

(** X6.  The line sent over Bluetooth determines the heart rate and the
    stress level it was made from: two states with the same line have the
    same [bpm] and the same [stressLevel], and the text before the first
    comma is the decimal rendering of [bpm]. *)
Theorem telemetry_line_injective (st1 st2 : state) :
  telemetryLine st1 = telemetryLine st2 ->
  bpm st1 = bpm st2 /\ stressLevel st1 = stressLevel st2.
Proof.
  unfold telemetryLine. intros H.
  apply split_at_first_comma in H; try apply pretty_Z_comma_free.
  destruct H as [Hb Hl]. split; [|exact Hl].
  apply (inj pretty). exact Hb.
Qed.

Lemma telemetry_line_injective_witness :
  telemetryLine (set_stressLevel "Low" (set_bpm 36 init)) = "36,Low" /\
  bpm (set_stressLevel "Low" (set_bpm 36 init)) = bpm (set_bpm 36 (set_stressLevel "Low" init)).
Proof.
  split; [vm_compute; reflexivity|].
  apply (telemetry_line_injective
           (set_stressLevel "Low" (set_bpm 36 init))
           (set_bpm 36 (set_stressLevel "Low" init))).
  vm_compute. reflexivity.
Defined.

(** X7.  Under a monotone clock every record sent during a run from power-up
    is the line of a state whose heart rate is between 0 and 108 and whose
    stress level agrees with that rate. *)
Theorem telemetry_records_consistent (inputs : list (Z * Z)) :
  monotone_from 0 inputs ->
  Forall (fun line =>
            exists st, line = telemetryLine st /\ level_agrees st /\
                       0 <= bpm st <= 108)
         (bluetooth (snd (run inputs (init, device0)))).
Proof.
  set (P := fun line => exists st, line = telemetryLine st /\ level_agrees st /\
                                   0 <= bpm st <= 108).
  assert (H : forall t0 w,
            monotone_from t0 inputs -> paced t0 (fst w) ->
            level_agrees (fst w) -> Forall P (bluetooth (snd w)) ->
            Forall P (bluetooth (snd (run inputs w)))).
  { induction inputs as [|[t s] rest IH]; intros t0 [st dev] Hm Hp Ha Hf;
      [exact Hf|].
    destruct Hm as [Ht Hm]. cbn [fst snd] in Hp, Ha, Hf.
    unfold run in *. cbn [fold_left].
    pose proof (loop_paced t0 t s st dev Hp Ht) as Hp'.
    pose proof (loop_agrees t s (st, dev) Ha) as Ha'.
    apply (IH t); try assumption.
    destruct (loop_telemetry t s st dev) as (Hyes & Hno).
    destruct (Z.le_gt_cases transmissionInterval
                (ULong.sub t (lastTransmissionTime st))) as [Hc|Hc].
    - destruct (Hyes Hc) as (_ & ->). apply Forall_app. split; [exact Hf|].
      constructor; [|constructor].
      exists (fst (loop t s (st, dev))). split; [reflexivity|].
      split; [exact Ha'|]. apply (paced_bpm _ _ Hp').
    - destruct (Hno Hc) as (_ & ->). exact Hf. }
  intros Hm. apply (H 0 (init, device0) Hm init_paced).
  - left. split; reflexivity.
  - constructor.
Qed.

Lemma telemetry_records_consistent_witness :
  bluetooth (snd (run brisk_run (init, device0))) = ["0,"; "96,Very High"] /\
  Forall (fun line =>
            exists st, line = telemetryLine st /\ level_agrees st /\
                       0 <= bpm st <= 108)
         (bluetooth (snd (run brisk_run (init, device0)))).
Proof.
  assert (Hm : monotone_from 0 brisk_run)
    by (vm_compute; repeat split; congruence).
  split; [vm_compute; reflexivity|].
  apply (telemetry_records_consistent brisk_run Hm).
Defined.

(** ** The waveform buffer along a run *)

Lemma detectPulse_waveform t s st :
  ecgWaveform (detectPulse t s st) = ecgWaveform st /\
  ecgIndex (detectPulse t s st) = ecgIndex st.
Proof. unfold detectPulse. destruct (beatAccepted t s st); cbn; auto. Qed.

Lemma run_waveform inputs w :
  wf (fst w) ->
  ecgIndex (fst (run inputs w)) =
    (ecgIndex (fst w) + Z.of_nat (length inputs)) mod ECG_SAMPLE_SIZE /\
  ecgWaveform (fst (run inputs w)) =
    ring_write (ecgIndex (fst w)) (rescaled inputs) (ecgWaveform (fst w)).
Proof.
  revert w. induction inputs as [|[t s] rest IH]; intros w Hwf.
  - cbn. destruct Hwf as [H _ _ _].
    rewrite Z.add_0_r, Z.mod_small by exact H. auto.
  - unfold run in *. cbn [fold_left].
    destruct (IH (loop t s w) (loop_wf t s w Hwf)) as (I1 & I2).
    rewrite I1, I2. clear I1 I2 IH.
    destruct (loop_detector t s w) as (_ & _ & _ & L4 & L5). rewrite L4, L5.
    destruct (detectPulse_waveform t s (sampleWaveform s (fst w))) as (-> & ->).
    pose proof (wf_ecgIndex _ Hwf) as Hi.
    unfold sampleWaveform. cbn [ecgIndex ecgWaveform set_ecgIndex set_ecgWaveform].
    rewrite ring_next by exact Hi.
    cbn [rescaled fmap list_fmap length ring_write snd].
    rewrite Zplus_mod_idemp_l. split; [f_equal; lia|].
    unfold aset. destruct (Z.leb_spec 0 (ecgIndex (fst w))); [reflexivity|lia].
Qed.

(** X8.  Along every run from power-up the write index of the waveform
    buffer is the number of iterations modulo 128, and each slot holds the
    rescaled sample of the last iteration that wrote it: after [n >= 128]
    iterations the buffer holds exactly the last 128 samples, the one of
    iteration [k] in slot [k mod 128]; before that, the slots not yet
    written hold 0. *)
Theorem waveform_ring (inputs : list (Z * Z)) (dev : device) :
  let st := fst (run inputs (init, dev)) in
  let n := Z.of_nat (length inputs) in
  let r := n mod 128 in
  ecgIndex st = r /\
  length (ecgWaveform st) = 128%nat /\
  forall j : nat,
    Z.of_nat j < 128 ->
    ecgWaveform st !! j =
    if decide (Z.of_nat j < r)
    then rescaled inputs !! Z.to_nat (n - r + Z.of_nat j)
    else if decide (128 <= n)
         then rescaled inputs !! Z.to_nat (n - r - 128 + Z.of_nat j)
         else Some 0.
Proof.
  intros st n r.
  destruct (run_waveform inputs (init, dev) init_wf) as (H1 & H2).
  fold st in H1, H2. cbn [fst ecgIndex ecgWaveform init] in H1, H2.
  rewrite Z.add_0_l in H1. change ECG_SAMPLE_SIZE with 128 in H1.
  split; [exact H1|].
  split; [apply (wf_ecgWaveform _ (run_wf inputs (init, dev) init_wf))|].
  intros j Hj. rewrite H2.
  assert (Hlen : Z.of_nat (length (rescaled inputs)) = n)
    by (unfold rescaled; rewrite length_fmap; reflexivity).
  pose proof (ring_write_lookup (rescaled inputs)
                (replicate (Z.to_nat ECG_SAMPLE_SIZE) 0)
                ltac:(apply length_replicate) j Hj) as H.
  cbv zeta in H. rewrite Hlen in H. change ECG_SAMPLE_SIZE with 128 in *.
  fold r in H. rewrite H.
  repeat case_decide; try reflexivity.
  apply lookup_replicate_2. lia.
Qed.

Lemma waveform_ring_witness :
  let st := fst (run counting_run (init, device0)) in
  ecgIndex st = 2 /\
  take 3 (ecgWaveform st) = [17; 17; 0] /\
  ecgWaveform st !! 1%nat = rescaled counting_run !! 129%nat.
Proof.
  destruct (waveform_ring counting_run device0) as (H1 & _ & H3).
  split; [exact H1|]. split; [vm_compute; reflexivity|].
  apply (H3 1%nat). vm_compute. reflexivity.
Defined.

(** ** The rescaled samples *)

Lemma map_sample x :
  0 <= x <= 100000000 ->
  map x 0 1023 0 ECG_AMPLITUDE = x * 20 / 1023.
Proof.
  intros Hx. unfold map, ECG_AMPLITUDE, Int.add, Int.div, Int.mul, Int.sub.
  rewrite !Z.sub_0_r.
  rewrite (int_wrap_small x) by int_range.
  rewrite (int_wrap_small 20) by int_range.
  rewrite (int_wrap_small 1023) by int_range.
  rewrite (int_wrap_small (x * 20)) by int_range.
  rewrite Z.quot_div_nonneg by lia.
  assert (0 <= x * 20 / 1023 <= x * 20).
  { split; [apply Z.div_pos; lia|]. apply Z.div_le_upper_bound; lia. }
  rewrite (int_wrap_small (x * 20 / 1023)) by int_range.
  rewrite Z.add_0_r. apply int_wrap_small. int_range.
Qed.

Lemma map_sample_range x :
  0 <= x <= 1023 -> 0 <= map x 0 1023 0 ECG_AMPLITUDE <= 20.
Proof.
  intros Hx. rewrite map_sample by lia. split.
  - apply Z.div_pos; lia.
  - apply Z.div_le_upper_bound; lia.
Qed.

Lemma loop_entries t s w :
  0 <= s <= 1023 ->
  Forall (fun v => 0 <= v <= 20) (ecgWaveform (fst w)) ->
  Forall (fun v => 0 <= v <= 20) (ecgWaveform (fst (loop t s w))).
Proof.
  intros Hs H.
  destruct (loop_detector t s w) as (_ & _ & _ & L4 & _). rewrite L4.
  destruct (detectPulse_waveform t s (sampleWaveform s (fst w))) as (-> & _).
  unfold sampleWaveform. cbn [ecgWaveform set_ecgIndex set_ecgWaveform].
  unfold aset. destruct (0 <=? _); [|exact H].
  apply Forall_insert; [exact H|]. apply map_sample_range, Hs.
Qed.

(** X9.  A sample between 0 and 100 000 000 is stored as [sample * 20 / 1023]
    (truncated); when every sample of a run from power-up is between 0 and
    1023, every entry of the waveform buffer stays between 0 and 20. *)
Theorem waveform_entries_range :
  (forall x, 0 <= x <= 100000000 ->
             map x 0 1023 0 ECG_AMPLITUDE = x * 20 / 1023) /\
  (forall inputs dev,
     Forall (fun input => 0 <= snd input <= 1023) inputs ->
     Forall (fun v => 0 <= v <= 20)
            (ecgWaveform (fst (run inputs (init, dev))))).
Proof.
  split; [exact map_sample|].
  intros inputs dev Hin.
  assert (H : forall w,
            Forall (fun v => 0 <= v <= 20) (ecgWaveform (fst w)) ->
            Forall (fun v => 0 <= v <= 20) (ecgWaveform (fst (run inputs w)))).
  { induction Hin as [|[t s] rest Hs _ IH]; intros w Hw; [exact Hw|].
    unfold run in *. cbn [fold_left]. apply IH, loop_entries; assumption. }
  apply H. cbn. apply Forall_forall. intros v Hv.
  apply elem_of_replicate in Hv. lia.
Qed.

Lemma waveform_entries_range_witness :
  map 600 0 1023 0 ECG_AMPLITUDE = 11 /\
  Forall (fun v => 0 <= v <= 20)
         (ecgWaveform (fst (run ramp_inputs (init, device0)))).
Proof.
  destruct waveform_entries_range as (H1 & H2).
  split.
  - rewrite H1 by (vm_compute; split; congruence). reflexivity.
  - apply H2. unfold ramp_inputs. apply Forall_fmap, Forall_forall.
    intros k Hk. apply elem_of_seqZ in Hk. cbn. lia.
Defined.

(** ** The display *)

Lemma aget_entry w (k : nat) :
  (k < length w)%nat -> Forall (fun v => 0 <= v <= 20) w ->
  0 <= aget w (Z.of_nat k) <= 20.
Proof.
  intros Hk Hw. unfold aget.
  destruct (Z.leb_spec 0 (Z.of_nat k)); [|lia]. rewrite Nat2Z.id.
  destruct (lookup_lt_is_Some_2 w k Hk) as [v Hv].
  rewrite (list_lookup_total_correct _ _ _ Hv).
  exact (proj1 (Forall_lookup _ _) Hw k v Hv).
Qed.

Lemma loopDisplay_final t s st dev :
  loopDisplay t s st = updateDisplay (fst (loop t s (st, dev))).
Proof.
  destruct (loop_unfold t s st dev) as (_ & ->). unfold loopDisplay.
  destruct (transmissionInterval <=? _); reflexivity.
Qed.

(** X10.  When the buffer has its 128 entries, all between 0 and 20,
    [updateDisplay] makes 137 calls: after clearing, it draws the waveform
    as 127 white segments, the k-th from column k, row
    40 - ecgWaveform[k], to column k + 1, row 40 - ecgWaveform[k + 1] (a
    connected line over the columns 0 to 127 in storage order, within the
    rows 20 to 40), and then prints [bpm] and [stressLevel].  The frame
    drawn by an iteration of [loop] is that of the state the iteration
    ends with. *)
Theorem display_trace (st : state) :
  length (ecgWaveform st) = 128%nat ->
  Forall (fun v => 0 <= v <= 20) (ecgWaveform st) ->
  let w := ecgWaveform st in
  length (updateDisplay st) = 137%nat /\
  (forall k : nat,
     (k < 127)%nat ->
     updateDisplay st !! S k =
       Some (drawLine (Z.of_nat k) (40 - aget w (Z.of_nat k))
                      (Z.of_nat k + 1) (40 - aget w (Z.of_nat k + 1))
                      SSD1306_WHITE) /\
     20 <= 40 - aget w (Z.of_nat k) <= 40 /\
     20 <= 40 - aget w (Z.of_nat k + 1) <= 40) /\
  updateDisplay st !! 132%nat = Some (println (pretty (bpm st))) /\
  updateDisplay st !! 135%nat = Some (println (stressLevel st)) /\
  (forall t s st0 dev,
     loopDisplay t s st0 = updateDisplay (fst (loop t s (st0, dev)))).
Proof.
  intros Hlen Hw w.
  assert (Hseg : length (waveformSegments w) = 127%nat)
    by (unfold waveformSegments; rewrite length_fmap, length_seqZ; reflexivity).
  assert (Htext : forall k : nat,
            updateDisplay st !! (128 + k)%nat =
            [drawLine 0 40 127 40 SSD1306_BLACK; setTextSize 1;
             setCursor 0 45; print "BPM: "; println (pretty (bpm st));
             setCursor 0 55; print "Stress: "; println (stressLevel st);
             display] !! k).
  { intros k. unfold updateDisplay. fold w.
    rewrite lookup_app_r by (cbn; lia). cbn [length].
    rewrite lookup_app_r by lia. f_equal. lia. }
  split.
  { unfold updateDisplay. fold w. rewrite !length_app, Hseg. reflexivity. }
  split; [|split; [apply (Htext 4%nat)|split; [apply (Htext 7%nat)|]];
           exact loopDisplay_final].
  intros k Hk.
  pose proof (aget_entry w k ltac:(subst w; lia) Hw) as H0.
  pose proof (aget_entry w (S k) ltac:(subst w; lia) Hw) as H1.
  replace (Z.of_nat (S k)) with (Z.of_nat k + 1) in H1 by lia.
  split; [|lia].
  unfold updateDisplay. fold w.
  rewrite (lookup_app_r [clearDisplay]) by (cbn; lia). cbn [length].
  replace (S k - 1)%nat with k by lia.
  rewrite lookup_app_l by lia.
  unfold waveformSegments. rewrite list_lookup_fmap.
  rewrite lookup_seqZ_lt by (unfold ECG_SAMPLE_SIZE; lia).
  cbn [fmap option_fmap option_map]. f_equal.
  replace (1 + Z.of_nat k - 1) with (Z.of_nat k) by lia.
  replace (1 + Z.of_nat k) with (Z.of_nat k + 1) by lia.
  unfold Int.sub.
  rewrite !int_wrap_small by int_range.
  f_equal. lia.
Qed.

Lemma display_trace_witness :
  let st := fst (run ramp_inputs (init, device0)) in
  updateDisplay st !! 6%nat = Some (drawLine 5 35 6 34 SSD1306_WHITE) /\
  updateDisplay st !! 7%nat = Some (drawLine 6 34 7 33 SSD1306_WHITE) /\
  updateDisplay st !! 132%nat = Some (println "0").
Proof.
  pose (st := fst (run ramp_inputs (init, device0))).
  assert (Hlen : length (ecgWaveform st) = 128%nat) by (vm_compute; reflexivity).
  assert (Hw : Forall (fun v => 0 <= v <= 20) (ecgWaveform st)).
  { replace (ecgWaveform st) with ramp by (vm_compute; reflexivity).
    unfold ramp. apply Forall_fmap, Forall_forall.
    intros k Hk. apply elem_of_seqZ in Hk. cbn. lia. }
  destruct (display_trace st Hlen Hw) as (_ & H & Hb & _).
  cbv zeta. fold st. split; [|split].
  - rewrite (proj1 (H 5%nat ltac:(lia))). vm_compute. reflexivity.
  - rewrite (proj1 (H 6%nat ltac:(lia))). vm_compute. reflexivity.
  - rewrite Hb. vm_compute. reflexivity.
Defined.

(** ** The beat times and the intervals *)

Lemma run_beat_times_mod inputs w :
  (lastBeatTime (fst w) + total (recorded inputs w).*2) mod 2 ^ 32 =
  lastBeatTime (fst (run inputs w)) mod 2 ^ 32.
Proof.
  revert w. induction inputs as [|[t s] rest IH]; intros w.
  - cbn. rewrite Z.add_0_r. reflexivity.
  - cbn [recorded]. unfold run in *. cbn [fold_left].
    rewrite <- (IH (loop t s w)). clear IH.
    destruct (loop_detector t s w) as (L1 & _). rewrite L1.
    destruct (sampleWaveform_detector s (fst w)) as (S1 & _).
    destruct (beatAccepted t s (sampleWaveform s (fst w))) eqn:H.
    + rewrite (detectPulse_accepted _ _ _ H). cbn [lastBeatTime].
      cbn [app fmap list_fmap snd]. unfold total at 1. cbn [foldr].
      fold (total (recorded rest (loop t s w)).*2).
      rewrite S1. unfold ULong.sub, ULong.wrap, ULong.modulus.
      rewrite Z.add_assoc, <- (Zplus_mod_idemp_l (_ + _)).
      rewrite Zplus_mod_idemp_r.
      replace (lastBeatTime (fst w) + (t - lastBeatTime (fst w))) with t by lia.
      rewrite Zplus_mod_idemp_l. reflexivity.
    + rewrite (detectPulse_rejected _ _ _ H), S1. reflexivity.
Qed.

Lemma run_beat_times inputs t0 w :
  monotone_from t0 inputs -> 0 <= lastBeatTime (fst w) <= t0 ->
  lastBeatTime (fst (run inputs w)) =
    lastBeatTime (fst w) + total (recorded inputs w).*2 /\
  lastBeatTime (fst (run inputs w)) <= last_time t0 inputs.
Proof.
  revert t0 w. induction inputs as [|[t s] rest IH]; intros t0 w Hm Hl.
  - cbn. rewrite Z.add_0_r. split; [reflexivity|]. cbn in Hl. lia.
  - destruct Hm as [Ht Hm].
    cbn [recorded]. unfold run, last_time in *. cbn [fold_left fst].
    destruct (loop_detector t s w) as (L1 & _).
    destruct (sampleWaveform_detector s (fst w)) as (S1 & _).
    destruct (beatAccepted t s (sampleWaveform s (fst w))) eqn:H.
    + rewrite (detectPulse_accepted _ _ _ H) in L1. cbn [lastBeatTime] in L1.
      destruct (IH t (loop t s w) Hm ltac:(lia)) as (I1 & I2).
      rewrite I1, L1. split; [|rewrite I1, L1 in I2; exact I2].
      cbn [app fmap list_fmap snd]. unfold total at 2. cbn [foldr].
      fold (total (recorded rest (loop t s w)).*2).
      rewrite S1, ulong_sub_small by lia. lia.
    + rewrite (detectPulse_rejected _ _ _ H), S1 in L1.
      destruct (IH t (loop t s w) Hm ltac:(lia)) as (I1 & I2).
      rewrite I1, L1 in *. cbn [app]. split; [reflexivity|exact I2].
Qed.

Lemma ring_write_short xs :
  (length xs <= 128)%nat ->
  ring_write 0 xs (replicate 128 0) = xs ++ replicate (128 - length xs) 0.
Proof.
  intros Hlen. apply list_eq. intros j.
  destruct (decide (j < 128)%nat) as [Hj|Hj].
  - pose proof (ring_write_lookup xs (replicate 128 0)
                  ltac:(rewrite length_replicate; reflexivity) j
                  ltac:(unfold ECG_SAMPLE_SIZE; lia)) as H.
    cbv zeta in H. change ECG_SAMPLE_SIZE with 128 in H. rewrite H. clear H.
    destruct (decide (length xs = 128%nat)) as [E|E].
    + rewrite E. change (Z.of_nat 128 mod 128) with 0.
      destruct (decide (Z.of_nat j < 0)); [lia|].
      destruct (decide (128 <= Z.of_nat 128)); [|lia].
      replace (Z.to_nat (Z.of_nat 128 - 0 - 128 + Z.of_nat j)) with j by lia.
      rewrite lookup_app_l by lia. reflexivity.
    + rewrite (Z.mod_small (Z.of_nat (length xs)) 128) by lia.
      destruct (decide (Z.of_nat j < Z.of_nat (length xs))).
      * replace (Z.to_nat (Z.of_nat (length xs) - Z.of_nat (length xs)
                           + Z.of_nat j)) with j by lia.
        rewrite lookup_app_l by lia. reflexivity.
      * destruct (decide (128 <= Z.of_nat (length xs))); [lia|].
        rewrite lookup_app_r by lia.
        rewrite !lookup_replicate_2 by lia. reflexivity.
  - rewrite !lookup_ge_None_2; [reflexivity| |].
    + rewrite length_app, length_replicate. lia.
    + rewrite ring_write_length, length_replicate. lia.
Qed.

Lemma total_app xs ys : total (xs ++ ys) = total xs + total ys.
Proof.
  unfold total. induction xs as [|x xs IH]; cbn; [reflexivity|].
  rewrite IH. lia.
Qed.

Lemma total_replicate_0 k : total (replicate k 0) = 0.
Proof. unfold total. induction k as [|k IH]; cbn; [reflexivity|exact IH]. Qed.

Lemma recorded_length inputs w :
  (length (recorded inputs w) <= length inputs)%nat.
Proof.
  revert w. induction inputs as [|[t s] rest IH]; intros w; [cbn; lia|].
  cbn [recorded]. rewrite length_app. specialize (IH (loop t s w)).
  destruct (beatAccepted _ _ _); cbn [length] in *; lia.
Qed.

(** X11.  After a run from power-up in which at most 128 beats were
    accepted (in particular after at most 128 iterations), the array
    [nnIntervals] holds the recorded intervals in order, followed by zeros,
    and its entries add up to [lastBeatTime] modulo 2^32, and exactly when
    the clock is monotone and does not wrap: the time of the last beat can
    be rebuilt from the stored intervals. *)
Theorem intervals_sum_to_last_beat (inputs : list (Z * Z)) (dev : device) :
  let st := fst (run inputs (init, dev)) in
  let xs := (recorded inputs (init, dev)).*2 in
  ((length xs <= 128)%nat ->
   nnIntervals st = xs ++ replicate (128 - length xs) 0 /\
   total (nnIntervals st) mod 2 ^ 32 = lastBeatTime st mod 2 ^ 32 /\
   (monotone_from 0 inputs ->
    total (nnIntervals st) = lastBeatTime st /\
    lastBeatTime st <= last_time 0 inputs)) /\
  ((length inputs <= 128)%nat ->
   total (nnIntervals st) mod 2 ^ 32 = lastBeatTime st mod 2 ^ 32 /\
   (monotone_from 0 inputs -> total (nnIntervals st) = lastBeatTime st)).
Proof.
  intros st xs.
  assert (Hshort : (length xs <= 128)%nat ->
     nnIntervals st = xs ++ replicate (128 - length xs) 0 /\
     total (nnIntervals st) mod 2 ^ 32 = lastBeatTime st mod 2 ^ 32 /\
     (monotone_from 0 inputs ->
      total (nnIntervals st) = lastBeatTime st /\
      lastBeatTime st <= last_time 0 inputs)).
  { intros Hlen.
    destruct (run_history inputs (init, dev) init_wf) as (_ & H2).
    cbv zeta in H2. fold st xs in H2.
    change (nnIntervals st = ring_write 0 xs (replicate 128 0)) in H2.
    rewrite (ring_write_short xs Hlen) in H2.
    assert (Ht : total (nnIntervals st) = total xs).
    { rewrite H2, total_app, total_replicate_0. lia. }
    split; [exact H2|]. rewrite Ht. split.
    - pose proof (run_beat_times_mod inputs (init, dev)) as H.
      cbn [fst lastBeatTime init] in H. rewrite Z.add_0_l in H. exact H.
    - intros Hm.
      destruct (run_beat_times inputs 0 (init, dev) Hm) as (H1 & H3).
      { cbn. lia. }
      cbn [fst lastBeatTime init] in H1. rewrite Z.add_0_l in H1.
      fold st xs in H1. fold st in H3. split; [symmetry; exact H1|exact H3]. }
  split; [exact Hshort|].
  intros Hlen.
  assert (Hx : (length xs <= 128)%nat).
  { unfold xs. rewrite length_fmap.
    pose proof (recorded_length inputs (init, dev)). lia. }
  destruct (Hshort Hx) as (_ & H1 & H2).
  split; [exact H1|]. intros Hm. apply (H2 Hm).
Qed.

Lemma intervals_sum_to_last_beat_witness :
  let st := fst (run six_beats (init, device0)) in
  take 7 (nnIntervals st) = [900; 700; 700; 700; 700; 700; 0] /\
  total (nnIntervals st) = 4400 /\
  lastBeatTime st = 4400.
Proof.
  destruct (intervals_sum_to_last_beat six_beats device0) as (_ & H).
  assert (Hm : monotone_from 0 six_beats)
    by (vm_compute; repeat split; congruence).
  destruct (H ltac:(cbn; lia)) as (_ & H1).
  specialize (H1 Hm).
  split; [vm_compute; reflexivity|]. split; [vm_compute; reflexivity|].
  rewrite <- H1. vm_compute. reflexivity.
Defined.

(** ** A constant signal *)

Lemma replicate_flat c : minimalVariation (replicate 128 c) = true.
Proof.
  apply flat_is_minimalVariation. intros i Hi.
  assert (Hget : forall j, 0 <= j < 128 -> aget (replicate 128 c) j = c).
  { intros j Hj. unfold aget. destruct (Z.leb_spec 0 j); [|lia].
    apply lookup_total_replicate_2. lia. }
  rewrite !Hget by lia. rewrite Z.sub_diag. cbn. lia.
Qed.

(** X12.  When the last 128 samples of a run from power-up all rescale to the
    same value, the waveform buffer is constant; if the last iteration
    ends a window, that window reports [bpm = 0] and "None", whatever
    beats were counted (a sensor stuck above the threshold is counted as
    a beat every 601 ms or more). *)
Theorem constant_signal_reads_no_pulse
  (inputs : list (Z * Z)) (t s : Z) (dev : device) (c : Z) :
  let all := inputs ++ [(t, s)] in
  let n := Z.of_nat (length all) in
  128 <= n ->
  (forall k : nat, n - 128 <= Z.of_nat k < n -> rescaled all !! k = Some c) ->
  10000 <= ULong.sub t (intervalStartTime (fst (run inputs (init, dev)))) ->
  let st := fst (run all (init, dev)) in
  ecgWaveform st = replicate 128 c /\ bpm st = 0 /\ stressLevel st = "None".
Proof.
  intros all n Hn Hc Hel st.
  assert (Hbuf : ecgWaveform st = replicate 128 c).
  { destruct (run_waveform all (init, dev) init_wf) as (_ & H2).
    fold st in H2. cbn [fst ecgIndex ecgWaveform init] in H2.
    pose proof (wf_ecgWaveform _ (run_wf all (init, dev) init_wf)) as Hlen.
    fold st in Hlen. change (Z.to_nat ECG_SAMPLE_SIZE) with 128%nat in Hlen.
    apply list_eq. intros j.
    destruct (decide (j < 128)%nat) as [Hj|Hj].
    - rewrite H2.
      pose proof (ring_write_lookup (rescaled all)
                    (replicate (Z.to_nat ECG_SAMPLE_SIZE) 0)
                    ltac:(apply length_replicate) j
                    ltac:(unfold ECG_SAMPLE_SIZE; lia)) as H.
      cbv zeta in H.
      assert (Hlen' : Z.of_nat (length (rescaled all)) = n)
        by (unfold rescaled; rewrite length_fmap; reflexivity).
      rewrite Hlen' in H. unfold ECG_SAMPLE_SIZE in H.
      change (Z.to_nat 128) with 128%nat in H.
      change ECG_SAMPLE_SIZE with 128. change (Z.to_nat 128) with 128%nat.
      rewrite H. clear H.
      pose proof (Z.mod_pos_bound n 128 eq_refl) as Hr.
      assert (Hle : n mod 128 <= n) by (apply Z.mod_le; lia).
      rewrite !lookup_replicate_2 by lia.
      repeat case_decide; try lia; apply Hc; lia.
    - rewrite lookup_ge_None_2 by lia.
      symmetry. apply lookup_ge_None_2. rewrite length_replicate. lia. }
  split; [exact Hbuf|].
  subst st all. unfold run in *. rewrite fold_left_app in *. cbn [fold_left] in *.
  destruct (fold_left _ inputs (init, dev)) as [st0 dev0]. cbn [fst] in Hel.
  destruct (loop_detector t s (st0, dev0)) as (_ & _ & _ & L4 & _).
  destruct (detectPulse_waveform t s (sampleWaveform s st0)) as (D1 & _).
  cbn [fst] in L4. rewrite Hbuf, D1 in L4.
  destruct (pre_window_frame t s st0) as (F0 & _).
  destruct (loop_unfold t s st0 dev0) as (_ & ->).
  set (pre := detectPulse t s (sampleWaveform s st0)) in *.
  assert (Hw : windowElapsed t pre = true).
  { unfold windowElapsed, interval. rewrite F0. apply Z.leb_le. exact Hel. }
  rewrite Hw.
  assert (Hflat : minimalVariation (ecgWaveform pre) = true).
  { rewrite D1, <- L4. apply replicate_flat. }
  destruct (evaluateWindow_flat t pre Hflat) as (Hb & Hs).
  revert Hb Hs. generalize (evaluateWindow t pre). intros e Hb Hs.
  destruct (transmissionInterval <=? _); cbn [fst];
    unfold set_lastTransmissionTime; cbn [bpm stressLevel];
    split; assumption.
Qed.

Lemma constant_signal_reads_no_pulse_witness :
  let st := fst (run (stuck_high ++ [(10033, 1023)]) (init, device0)) in
  length (recorded (stuck_high ++ [(10033, 1023)]) (init, device0)) = 15%nat /\
  ecgWaveform st = replicate 128 20 /\ bpm st = 0 /\ stressLevel st = "None".
Proof.
  split; [vm_compute; reflexivity|].
  apply (constant_signal_reads_no_pulse stuck_high 10033 1023 device0 20).
  - vm_compute. congruence.
  - intros k Hk.
    assert (Hr : rescaled (stuck_high ++ [(10033, 1023)]) = replicate 128 20)
      by (vm_compute; reflexivity).
    rewrite Hr. apply lookup_replicate_2.
    change (Z.of_nat (length (stuck_high ++ [(10033, 1023)]))) with 128 in Hk.
    lia.
  - vm_compute. congruence.
Defined.
